(** * yt_downloader: a shallow embedding of the download queue, the worker
      pipeline and the size/time estimator of [yt_downloader.py].

    The Python program is a Tk front end over external tools: the [yt_dlp]
    fetcher, the [ffmpeg] media tool run through [subprocess.run], the
    speed probe made with [requests], and the file system reached through
    [os.remove].  The tools are taken as an environment ([Env]) that
    answers each call, the files on disk as a set of paths; everything the
    program itself decides (format selection, mark normalisation, the
    command lines, the order of the stages, what is logged and what is
    scheduled on the UI loop, what is deleted and when) is translated
    function by function.

    Text is modelled by [string] (one byte per character, ASCII).  A
    number is the rational it denotes ([Z] or [Q]).  Where the program
    turns text into a float, scales a size by 1024 or divides a size by a
    speed, the result is rounded to the nearest float ([round_float]); the
    percentage of the progress hook, the measured speed and the audio size
    are kept as the exact quotients and products. *)

From Stdlib Require Import Ascii String ZArith QArith Qround Qpower Qabs Lqa.
From stdpp Require Import base decidable option list strings pretty gmap.

Local Open Scope Z_scope.

(** ** Python built-ins used by the program *)

Module Py.

(** [str.isspace] on the ASCII range: TAB..CR, FS..US and the blank. *)
Definition is_space (c : ascii) : bool :=
  let n := N_of_ascii c in
  ((9 <=? n) && (n <=? 13) || (28 <=? n) && (n <=? 32))%N.

Fixpoint lstrip (s : string) : string :=
  match s with
  | "" => ""
  | String c s' => if is_space c then lstrip s' else s
  end.

Fixpoint rstrip (s : string) : string :=
  match s with
  | "" => ""
  | String c s' =>
      match rstrip s' with
      | "" => if is_space c then "" else String c ""
      | r => String c r
      end
  end.

(** [s.strip()] *)
Definition strip (s : string) : string := rstrip (lstrip s).

(** [c in s] for a one-character [c] *)
Fixpoint contains (c : ascii) (s : string) : bool :=
  match s with
  | "" => false
  | String a s' => if decide (a = c) then true else contains c s'
  end.

(** truthiness of a string: [bool(s)] *)
Definition truthy (s : string) : bool :=
  match s with "" => false | _ => true end.

Definition is_digit (c : ascii) : bool :=
  let n := N_of_ascii c in ((48 <=? n) && (n <=? 57))%N.

(** [all(P(c) for c in s)] *)
Fixpoint forall_chars (P : ascii -> bool) (s : string) : bool :=
  match s with
  | "" => true
  | String c s' => P c && forall_chars P s'
  end.

Definition all_digits (s : string) : bool := forall_chars is_digit s.

(** [s.isdigit()]: false on the empty string *)
Definition isdigit (s : string) : bool := truthy s && all_digits s.

(** [s[-1:]] as an optional character *)
Fixpoint last_char (s : string) : option ascii :=
  match s with
  | "" => None
  | String c "" => Some c
  | String _ s' => last_char s'
  end.

(** [s[:-1]] *)
Fixpoint drop_last (s : string) : string :=
  match s with
  | "" => ""
  | String _ "" => ""
  | String c s' => String c (drop_last s')
  end.

(** [s.endswith(c)] for a one-character suffix *)
Definition endswith (c : ascii) (s : string) : bool :=
  match last_char s with
  | Some a => bool_decide (a = c)
  | None => false
  end.

(** [s[:n]] and [s[n:]] for [0 <= n] *)
Fixpoint take (n : nat) (s : string) : string :=
  match n, s with
  | O, _ => ""
  | _, "" => ""
  | S n', String c s' => String c (take n' s')
  end.

Fixpoint drop (n : nat) (s : string) : string :=
  match n, s with
  | O, _ => s
  | _, "" => ""
  | S n', String _ s' => drop n' s'
  end.

(** [s.rfind(c)]: index of the last occurrence, [-1] when there is none *)
Fixpoint rfind_from (i : Z) (c : ascii) (s : string) : Z :=
  match s with
  | "" => -1
  | String a s' =>
      let r := rfind_from (i + 1) c s' in
      if decide (r = -1) then (if decide (a = c) then i else -1) else r
  end.

Definition rfind (c : ascii) (s : string) : Z := rfind_from 0 c s.

(** [s.lower()] on ASCII letters *)
Definition lower_char (c : ascii) : ascii :=
  let n := N_of_ascii c in
  if ((65 <=? n) && (n <=? 90))%N then ascii_of_N (n + 32) else c.

Fixpoint lower (s : string) : string :=
  match s with
  | "" => ""
  | String c s' => String (lower_char c) (lower s')
  end.

(** [sub in s] *)
Fixpoint is_infix (sub s : string) : bool :=
  String.prefix sub s ||
  match s with
  | "" => false
  | String _ s' => is_infix sub s'
  end.

(** [format(z, '02d')]: the decimal numeral, zero-padded to two columns;
    a numeral that already fills two columns (a negative digit included)
    is left alone. *)
Definition fmt_02d (z : Z) : string :=
  let s := pretty z in
  if (String.length s <? 2)%nat then "0" +:+ s else s.

End Py.

(** ** [os.path] (POSIX flavour) *)

Module OsPath.

(** The scan of [genericpath._splitext] that skips leading dots of the
    file name: is there a character other than ['.'] in
    [p[filenameIndex:dotIndex]]? *)
Fixpoint has_non_dot (n : nat) (s : string) : bool :=
  match n, s with
  | O, _ => false
  | _, "" => false
  | S n', String c s' =>
      if decide (c = "."%char) then has_non_dot n' s' else true
  end.

(** [os.path.splitext(p)] *)
Definition splitext (p : string) : string * string :=
  let sepIndex := Py.rfind "/"%char p in
  let dotIndex := Py.rfind "."%char p in
  if decide (sepIndex < dotIndex) then
    let filenameIndex := sepIndex + 1 in
    if has_non_dot (Z.to_nat (dotIndex - filenameIndex))
                   (Py.drop (Z.to_nat filenameIndex) p)
    then (Py.take (Z.to_nat dotIndex) p, Py.drop (Z.to_nat dotIndex) p)
    else (p, "")
  else (p, "").

(** [os.path.join(a, b)] for a relative [b] *)
Definition join (a b : string) : string :=
  if Py.truthy a && negb (Py.endswith "/"%char a)
  then a +:+ "/" +:+ b
  else a +:+ b.

End OsPath.

(** ** Configuration constants *)

Definition FFMPEG_CMD : string := "ffmpeg".
Definition MAX_WORKERS : Z := 2.

(** ** Floats *)

(** A Python float is an IEEE 754 double, held here as the rational it
    denotes.  [round_float q] is the double nearest to [q], ties going to
    the even mantissa: 53 bits of mantissa, exponents down to the
    subnormal 2^-1074.  Exponents are not bounded above by [round_float]
    itself: a result of 2^1024 or more is what Python turns into [inf] or
    [OverflowError], and the code that rounds says what happens then. *)

(** [floor(log2(q))] for [0 < q] *)
Definition Qlog2 (q : Q) : Z :=
  let k := Z.log2 (Qnum q) - Z.log2 (Zpos (Qden q)) in
  if Qle_bool (2 ^ k) q then k else k - 1.

Definition round_half_even (x : Q) : Z :=
  let f := Qfloor x in
  match (x - inject_Z f ?= 1 # 2)%Q with
  | Lt => f
  | Gt => f + 1
  | Eq => if Z.even f then f else f + 1
  end.

(** The exponent of the unit in the last place of the floats around [q]. *)
Definition ulp_exp (q : Q) : Z := Z.max (Qlog2 q - 52) (-1074).

Definition round_pos (q : Q) : Q :=
  let e := ulp_exp q in
  (inject_Z (round_half_even (q / 2 ^ e)) * 2 ^ e)%Q.

Definition round_float (q : Q) : Q :=
  let q := Qred q in
  match (q ?= 0)%Q with
  | Eq => 0%Q
  | Gt => round_pos q
  | Lt => (- round_pos (- q))%Q
  end.

(** The rationals that are floats; every integer up to 2^53 is one. *)
Definition is_float (q : Q) : Prop := (round_float q == q)%Q.

(** [int(x)] on a finite float: towards zero *)
Definition Qtrunc (x : Q) : Z :=
  if Qle_bool 0 x then Qfloor x else Qceiling x.

(** ** [float(s)] *)

(** The value of a run of ASCII digits, [acc] being the value of the
    digits read so far. *)
Fixpoint digits_value (acc : Z) (s : string) : Z :=
  match s with
  | "" => acc
  | String c s' => digits_value (10 * acc + (Z.of_N (N_of_ascii c) - 48)) s'
  end.

(** The grammar of [float]:
    [digitpart ::= digit (["_"] digit)*],
    [number ::= [digitpart] "." digitpart | digitpart ["."]],
    [exponent ::= ("e" | "E") ["+" | "-"] digitpart],
    [floatvalue ::= ["+" | "-"] number [exponent]].
    [digitpart_tail s] reads [(["_"] digit)*] off the head of [s] and
    returns its digits and what follows. *)
Fixpoint digitpart_tail (s : string) : string * string :=
  match s with
  | "" => ("", "")
  | String c s' =>
      if Py.is_digit c then
        let '(ds, r) := digitpart_tail s' in (String c ds, r)
      else if decide (c = "_"%char) then
        match s' with
        | "" => ("", s)
        | String c' s'' =>
            if Py.is_digit c' then
              let '(ds, r) := digitpart_tail s'' in (String c' ds, r)
            else ("", s)
        end
      else ("", s)
  end.

(** The longest [digitpart] at the head of [s] (no digits when there is
    none) and what follows it. *)
Definition digitpart (s : string) : string * string :=
  match s with
  | "" => ("", "")
  | String c s' =>
      if Py.is_digit c then
        let '(ds, r) := digitpart_tail s' in (String c ds, r)
      else ("", s)
  end.

(** An optional sign: is it ["-"], and what follows. *)
Definition sign_split (s : string) : bool * string :=
  match s with
  | "" => (false, s)
  | String c r =>
      if decide (c = "-"%char) then (true, r)
      else if decide (c = "+"%char) then (false, r)
      else (false, s)
  end.

(** What follows the number: nothing, or an exponent up to the end. *)
Definition parse_exponent (s : string) : option Z :=
  match s with
  | "" => Some 0
  | String c r =>
      if bool_decide (c = "e"%char) || bool_decide (c = "E"%char) then
        let '(neg, r1) := sign_split r in
        match digitpart r1 with
        | (String d ds, "") =>
            let x := digits_value 0 (String d ds) in
            Some (if neg then - x else x)
        | _ => None
        end
      else None
  end.

Definition parse_number (s : string) : option Q :=
  let '(ip, r) := digitpart s in
  let '(fp, r') :=
    match r with
    | String c r1 => if decide (c = "."%char) then digitpart r1 else ("", r)
    | "" => ("", r)
    end in
  if negb (Py.truthy ip) && negb (Py.truthy fp) then None
  else
    match parse_exponent r' with
    | Some x =>
        Some (inject_Z (digits_value 0 (ip +:+ fp))
              * 10 ^ (x - Z.of_nat (String.length fp)))%Q
    | None => None
    end.

(** The rational that the text of a finite float denotes, [None] for a
    text outside the grammar of numbers.  (The texts ["inf"], ["infinity"]
    and ["nan"], which [float] also accepts, are among the latter: [int]
    raises on their floats, so [int(float(s))] raises on them as it does on
    a text that [float] refuses.) *)
Definition float_literal (s : string) : option Q :=
  let '(neg, r) := sign_split (Py.strip s) in
  match parse_number r with
  | Some q => Some (if neg then - q else q)%Q
  | None => None
  end.

(** [int(float(s))] inside the [try] of [normalize]: [None] when either
    call raises ([ValueError] for a text that is no number,
    [OverflowError] for a number so large that its float is [inf]). *)
Definition int_float (s : string) : option Z :=
  match float_literal s with
  | None => None
  | Some q =>
      let x := round_float q in
      if Qle_bool (2 ^ 1024) (Qabs x) then None else Some (Qtrunc x)
  end.

(** ** Trim marks *)

(** [normalize] of the Trim stage, over the conversion [int(float(s))]:
    the environment carries it ([int_of_float]), and [int_float] above is
    Python's. *)
Definition hms (sec : Z) : string :=
  let h := sec / 3600 in
  let m := (sec mod 3600) / 60 in
  let sec := sec mod 60 in
  Py.fmt_02d h +:+ ":" +:+ Py.fmt_02d m +:+ ":" +:+ Py.fmt_02d sec.

Definition normalize (int_of_float : string -> option Z) (ts : string)
  : option string :=
  let s := Py.strip ts in
  if negb (Py.truthy s) then None
  else if Py.contains ":"%char s then Some s
  else match int_of_float s with
       | Some sec => Some (hms sec)
       | None => None
       end.

(** ** Jobs *)

(** The [opts] dictionary built by [App.add_to_queue]. *)
Record Opts := {
  quality : string;
  save_folder : string;
  start : string;
  end_ : string;
  audio_only : bool;
  convert_mp3 : bool;
  subs : bool;
  subs_lang : string;
  noplaylist : bool
}.

(** A task is the pair [(url, opts)] put on the queue. *)
Definition Task : Type := string * Opts.

(** ** Exceptions *)

Inductive exc :=
| CalledProcessError (returncode : Z) (cmd : list string)
| FileNotFoundError (filename : string)
| AttributeError (what : string)
| ValueError (what : string)
| NameError (what : string)
| OtherError (type_name what : string).

(** ** What the worker does to the outside world *)

(** [human_size]: either the text ["Unknown"] or a magnitude with its unit
    (rendered by Python as [f"{x:.2f} {unit}"]). *)
Inductive size_text :=
| Unknown
| Sized (x : Q) (unit : string).

(** Status texts: a plain string, or the f-string of the progress hook with
    its percentage and its two sizes. *)
Inductive status_text :=
| Status (txt : string)
| StatusDownloading (pct : Q) (done total : size_text).

Inductive eta_text :=
| EtaUnknown
| Eta (mins secs : Z).

(** Messages: a plain string, an f-string that ends in [{e}], or the
    estimator's ["Estimate done"] line with its two interpolated texts. *)
Inductive log_line :=
| Line (txt : string)
| LineExc (prefix : string) (e : exc)
| LineEstimate (size : size_text) (eta : eta_text).

(** The UI methods the worker hands to [ui.schedule] inside a lambda.
    [ShowError title e] is [lambda: messagebox.showerror(title, str(e))],
    where [e] is the variable of the [except] clause that schedules it. *)
Inductive ui_call :=
| SetStatus (txt : status_text)
| UpdateProgress (pct : Q)
| AddHistory (url file : string)
| ShowError (title : string) (e : exc).

Record YdlOpts := {
  outtmpl : string;
  yo_noplaylist : bool;
  continuedl : bool;
  retries : Z;
  no_warnings : bool;
  quiet : bool;
  format : string
}.

Record SubOpts := {
  skip_download : bool;
  writesubtitles : bool;
  writeautomaticsub : bool;
  subtitleslangs : list string;
  so_outtmpl : string;
  so_quiet : bool
}.

(** Everything a worker thread does, in program order.  [Log] is a direct
    call of [self.ui.log] on the worker thread; [Schedule] is a call of
    [self.ui.schedule], which hands the thunk to the Tk loop
    ([root.after(0, func)]). *)
Inductive event :=
| Log (line : log_line)
| Schedule (thunk : ui_call)
| Extract (url : string) (o : YdlOpts)
| Spawn (argv : list string)
| Remove (path : string)
| SubDownload (url : string) (o : SubOpts).

(** ** The environment *)

(** The dictionary [yt_dlp] passes to a progress hook. *)
Record progress_dict := {
  pd_status : option string;
  total_bytes : option Z;
  total_bytes_estimate : option Z;
  downloaded_bytes : option Z
}.

(** One run of [extract_info(url, download=True)] followed by
    [prepare_filename(info)]: the hook calls it makes, the files it leaves
    on disk, and the name it returns or the exception it raises. *)
Record fetched := {
  hook_calls : list progress_dict;
  on_disk : list string;
  outcome : exc + string
}.

(** One run of a child process.  A run that exits with status 0 has written
    its output file; a run that exits with another status may still leave a
    (partial) output behind. *)
Inductive proc :=
| Exited (returncode : Z) (leaves_output : bool)
| NotStarted (e : exc).

(** A format entry and the [info] dictionary of
    [extract_info(url, download=False)], with the keys the estimator reads. *)
Record Format := {
  height : option Z;
  filesize : option Z
}.

Record Info := {
  abr : option Q;
  duration : option Q;
  formats : list Format;
  info_filesize : option Z
}.

(** One [requests.get(u, stream=True, timeout=6)] of the speed test with the
    iteration over its chunks: it raises (time-out, network error), or it
    yields chunks of the given lengths while the clock advances by
    [elapsed]. *)
Inductive probe :=
| ProbeRaises
| ProbeChunks (lengths : list Z) (elapsed : Q).

Record Env := {
  int_of_float : string -> option Z;
  ydl_extract_info : string -> YdlOpts -> fetched;
  subprocess : list string -> proc;
  ydl_download : string -> SubOpts -> option exc;
  ydl_info : string -> exc + Info;
  requests_get : string -> probe
}.

(** ** Worker state and the monad of worker code *)

Record World := {
  files : gset string;
  events : list event
}.

Definition M (A : Type) : Type := World -> (exc + A) * World.

Definition ret {A} (a : A) : M A := fun w => (inr a, w).

Definition bind {A B} (m : M A) (k : A -> M B) : M B :=
  fun w => match m w with
           | (inl e, w') => (inl e, w')
           | (inr a, w') => k a w'
           end.

Definition raise {A} (e : exc) : M A := fun w => (inl e, w).

(** [try: body  except Exception as e: handler e] *)
Definition try_except {A} (body : M A) (handler : exc -> M A) : M A :=
  fun w => match body w with
           | (inl e, w') => handler e w'
           | (inr a, w') => (inr a, w')
           end.

Declare Scope py_scope.
Delimit Scope py_scope with py.
Notation "x <- m ;; k" := (bind m (fun x => k))
  (at level 100, m at next level, right associativity) : py_scope.
Notation "m ;; k" := (bind m (fun _ => k))
  (at level 100, right associativity) : py_scope.
Local Open Scope py_scope.

Definition emit (ev : event) : M unit :=
  fun w => (inr tt, {| files := files w; events := events w ++ [ev] |}).

(** [self.ui.log(msg)], called from the worker thread. *)
Definition ui_log (line : log_line) : M unit := emit (Log line).

(** [self.ui.schedule(lambda: call)] *)
Definition ui_schedule (call : ui_call) : M unit := emit (Schedule call).

(** [os.remove(path)]: raises when there is no such file. *)
Definition os_remove (path : string) : M unit :=
  fun w =>
    if decide (path ∈ files w)
    then (inr tt, {| files := files w ∖ {[ path ]};
                     events := events w ++ [Remove path] |})
    else (inl (FileNotFoundError path),
          {| files := files w; events := events w ++ [Remove path] |}).

Definition leaves (p : proc) : bool :=
  match p with
  | Exited rc part => bool_decide (rc = 0) || part
  | NotStarted _ => false
  end.

(** [subprocess.run(argv, check=check)] for an [ffmpeg] command line, whose
    last word is the output file; returns [res.returncode]. *)
Definition subprocess_run (E : Env) (argv : list string) (check : bool) : M Z :=
  fun w =>
    let w1 := {| files := if leaves (subprocess E argv)
                          then files w ∪ list_to_set (option_list (last argv))
                          else files w;
                 events := events w ++ [Spawn argv] |} in
    match subprocess E argv with
    | NotStarted e => (inl e, w1)
    | Exited rc _ =>
        if check && negb (bool_decide (rc = 0))
        then (inl (CalledProcessError rc argv), w1)
        else (inr rc, w1)
    end.

Definition add_files (l : list string) : M unit :=
  fun w => (inr tt, {| files := files w ∪ list_to_set l; events := events w |}).

Fixpoint for_each {A} (f : A -> M unit) (l : list A) : M unit :=
  match l with
  | [] => ret tt
  | x :: l' => f x ;; for_each f l'
  end.

(** [with yt_dlp.YoutubeDL(o) as ydl: info = ydl.extract_info(url,
    download=True); out_file = ydl.prepare_filename(info)], with the hook
    registered in [o['progress_hooks']]. *)
Definition ydl_fetch (E : Env) (url : string) (o : YdlOpts)
    (hook : progress_dict -> M unit) : M string :=
  emit (Extract url o) ;;
  for_each hook (hook_calls (ydl_extract_info E url o)) ;;
  add_files (on_disk (ydl_extract_info E url o)) ;;
  match outcome (ydl_extract_info E url o) with
  | inl e => raise e
  | inr out_file => ret out_file
  end.

(** [with yt_dlp.YoutubeDL(sub_opts) as yd: yd.download([url])] *)
Definition ydl_subs (E : Env) (url : string) (o : SubOpts) : M unit :=
  emit (SubDownload url o) ;;
  match ydl_download E url o with
  | Some e => raise e
  | None => ret tt
  end.

(** ** Helpers of the program *)

(** [human_size].  A size is an int or a float.  [bytesize /= 1024] gives
    the float nearest to the quotient: that is the quotient itself when
    [bytesize] is a float or an int that a float holds (every int up to
    2^53 is one), and a rounded one for other ints.  An int beyond the
    floats makes that division raise [OverflowError]; such a size is
    beyond this definition. *)
Fixpoint human_size_loop (units : list string) (bytesize : Q) : size_text :=
  match units with
  | [] => Sized bytesize "PB"
  | unit :: rest =>
      if Qlt_le_dec bytesize 1024 then Sized bytesize unit
      else human_size_loop rest (round_float (bytesize / 1024))
  end.

Definition human_size (bytesize : option Q) : size_text :=
  match bytesize with
  | None => Unknown
  | Some b =>
      if Qeq_bool b 0 then Unknown
      else human_size_loop ["B"; "KB"; "MB"; "GB"; "TB"] b
  end.

(** [x or y] on optional numbers: [None] and [0] are falsy. *)
Definition num_truthy (x : option Z) : bool :=
  match x with
  | Some z => negb (Z.eqb z 0)
  | None => false
  end.

Definition num_or (x y : option Z) : option Z :=
  if num_truthy x then x else y.

(** ** queue.Queue *)

Module Queue.

Record t := {
  queue : list Task;
  unfinished_tasks : nat
}.

Definition empty : t := {| queue := []; unfinished_tasks := 0 |}.

Definition put (item : Task) (q : t) : t :=
  {| queue := queue q ++ [item];
     unfinished_tasks := S (unfinished_tasks q) |}.

(** [get(timeout=0.5)]: [None] stands for [queue.Empty]. *)
Definition get (q : t) : option (Task * t) :=
  match queue q with
  | [] => None
  | item :: rest =>
      Some (item, {| queue := rest; unfinished_tasks := unfinished_tasks q |})
  end.

Definition task_done (q : t) : exc + t :=
  match unfinished_tasks q with
  | O => inl (ValueError "task_done() called too many times")
  | S n => inr {| queue := queue q; unfinished_tasks := n |}
  end.

(** Every pending item has been counted by [put]. *)
Definition counted (q : t) : Prop :=
  (length (queue q) <= unfinished_tasks q)%nat.

End Queue.

(** ** DownloadWorker *)

Module DownloadWorker.

(** The format selector written into [ydl_opts['format']]. *)
Definition select_format (opts : Opts) : string :=
  if audio_only opts then "bestaudio/best"
  else
    let q := quality opts in
    if decide (q = "best") then "bestvideo+bestaudio/best"
    else if Py.endswith "p"%char q && Py.isdigit (Py.drop_last q)
    then "bestvideo[height<=" +:+ Py.drop_last q +:+ "]+bestaudio/best"
    else "bestvideo+bestaudio/best".

Definition ydl_opts (opts : Opts) : YdlOpts :=
  {| outtmpl := OsPath.join (save_folder opts) "%(title).120s.%(ext)s";
     yo_noplaylist := noplaylist opts;
     continuedl := true;
     retries := 6;
     no_warnings := true;
     quiet := true;
     format := select_format opts |}.

(** The progress hook. *)
Definition progress (d : progress_dict) : M unit :=
  if decide (pd_status d = Some "downloading") then
    let tb := default 0 (num_or (total_bytes d)
                           (num_or (total_bytes_estimate d) (Some 0))) in
    let db := default 0 (num_or (downloaded_bytes d) (Some 0)) in
    let pct := if negb (Z.eqb tb 0)
               then (inject_Z db / inject_Z tb * 100)%Q else 0%Q in
    ui_schedule (UpdateProgress pct) ;;
    ui_schedule (SetStatus (StatusDownloading pct
                              (human_size (Some (inject_Z db)))
                              (human_size (Some (inject_Z tb)))))
  else if decide (pd_status d = Some "finished") then
    ui_schedule (UpdateProgress 100%Q) ;;
    ui_schedule (SetStatus (Status "Finalizing..."))
  else ret tt.

(** Download stage: [Some out_file], or [None] when the handler ran (the
    [return] of the source). *)
Definition download (E : Env) (url : string) (opts : Opts) : M (option string) :=
  try_except
    (out_file <- ydl_fetch E url (ydl_opts opts) progress ;;
     ret (Some out_file))
    (fun e =>
       ui_log (LineExc "Download failed: " e) ;;
       ui_schedule (ShowError "Download failed" e) ;;
       ret None).

Definition mp3_path (out_file : string) : string :=
  fst (OsPath.splitext out_file) +:+ ".mp3".

Definition convert_cmd (out_file : string) : list string :=
  [FFMPEG_CMD; "-y"; "-i"; out_file; "-vn"; "-ab"; "192k"; "-ar"; "44100";
   mp3_path out_file].

(** Convert stage; the result is the new value of [out_file]. *)
Definition convert (E : Env) (opts : Opts) (out_file : string) : M string :=
  if audio_only opts && convert_mp3 opts then
    try_except
      (subprocess_run E (convert_cmd out_file) true ;;
       os_remove out_file ;;
       ret (mp3_path out_file))
      (fun e =>
         ui_log (LineExc "MP3 conversion failed: " e) ;;
         ret out_file)
  else ret out_file.

Definition trimmed (out_file : string) : string :=
  fst (OsPath.splitext out_file) +:+ "_trimmed" +:+ snd (OsPath.splitext out_file).

(** [cmd += [flag, v]] guarded by [if v:] *)
Definition flag (name : string) (v : option string) : list string :=
  match v with
  | Some s => if Py.truthy s then [name; s] else []
  | None => []
  end.

(** [cmd] after the two optional flags *)
Definition trim_cmd (E : Env) (opts : Opts) (out_file : string) : list string :=
  let ss := normalize (int_of_float E) (start opts) in
  let to := normalize (int_of_float E) (end_ opts) in
  [FFMPEG_CMD; "-y"; "-i"; out_file] ++ flag "-ss" ss ++ flag "-to" to.

Definition cmd_copy (E : Env) (opts : Opts) (out_file : string) : list string :=
  trim_cmd E opts out_file ++ ["-c"; "copy"; trimmed out_file].

Definition cmd_re (E : Env) (opts : Opts) (out_file : string) : list string :=
  trim_cmd E opts out_file ++ ["-c:v"; "libx264"; "-c:a"; "aac"; trimmed out_file].

(** Trim stage; the result is the new value of [out_file]. *)
Definition trim (E : Env) (opts : Opts) (out_file : string) : M string :=
  if Py.truthy (start opts) || Py.truthy (end_ opts) then
    try_except
      (returncode <- subprocess_run E (cmd_copy E opts out_file) false ;;
       (if negb (bool_decide (returncode = 0))
        then subprocess_run E (cmd_re E opts out_file) true ;; ret tt
        else ret tt) ;;
       os_remove out_file ;;
       ret (trimmed out_file))
      (fun e =>
         ui_log (LineExc "Trim failed: " e) ;;
         ret out_file)
  else ret out_file.

Definition sub_opts (opts : Opts) : SubOpts :=
  {| skip_download := true;
     writesubtitles := true;
     writeautomaticsub := true;
     subtitleslangs :=
       if Py.truthy (subs_lang opts) then [subs_lang opts] else ["en"];
     so_outtmpl := OsPath.join (save_folder opts) "%(title).120s.%(ext)s";
     so_quiet := true |}.

Definition subtitles (E : Env) (url : string) (opts : Opts) : M unit :=
  if subs opts then
    try_except
      (ydl_subs E url (sub_opts opts))
      (fun e => ui_log (LineExc "Sub download failed: " e))
  else ret tt.

(** The final UI updates. *)
Definition finalize (url out_file : string) : M unit :=
  ui_schedule (AddHistory url out_file) ;;
  ui_schedule (UpdateProgress 0%Q) ;;
  ui_schedule (SetStatus (Status "Ready")) ;;
  ui_log (Line ("Completed: " +:+ out_file)).

Definition process_task (E : Env) (task : Task) : M unit :=
  let '(url, opts) := task in
  ui_log (Line ("Start: " +:+ url)) ;;
  ui_schedule (SetStatus (Status "Downloading...")) ;;
  fetched <- download E url opts ;;
  match fetched with
  | None => ret tt
  | Some out_file =>
      out_file <- convert E opts out_file ;;
      out_file <- trim E opts out_file ;;
      subtitles E url opts ;;
      finalize url out_file
  end.

(** *** The worker loop *)

(** The rest of a turn once [get] has handed out [task]: the task is
    processed, then [task_done] is called on the queue as it is by then. *)
Definition finish (E : Env) (task : Task) (q : Queue.t) (w : World)
  : (exc + unit) * Queue.t * World :=
  let '(r, w1) :=
    try_except (process_task E task)
               (fun e => ui_log (LineExc "Task error: " e)) w in
  match Queue.task_done q with
  | inl e => (inl e, q, w1)
  | inr q2 => (r, q2, w1)
  end.

(** One turn of [while self.running:]. *)
Definition iteration (E : Env) (q : Queue.t) (w : World)
  : (exc + unit) * Queue.t * World :=
  match Queue.get q with
  | None => (inr tt, q, w)
  | Some (task, q1) => finish E task q1 w
  end.

(** [run]: the loop body repeated until [self.running] is found false,
    here after [turns] turns.  [inl e] means the thread died with [e]. *)
Fixpoint run (E : Env) (turns : nat) (q : Queue.t) (w : World)
  : (exc + unit) * Queue.t * World :=
  match turns with
  | O => (inr tt, q, w)
  | S n =>
      match iteration E q w with
      | (inl e, q', w') => (inl e, q', w')
      | (inr _, q', w') => run E n q' w'
      end
  end.

End DownloadWorker.

(** ** The speed test *)

Definition speed_test_urls : list string :=
  ["https://www.google.com/images/branding/googlelogo/1x/googlelogo_color_272x92dp.png";
   "https://www.cloudflare.com/img/cf-horizontal-bw.svg"].

(** The loop over [r.iter_content(8192)]: add up chunk lengths, stop once
    more than 200000 bytes have been read. *)
Fixpoint read_chunks (total : Z) (lengths : list Z) : Z :=
  match lengths with
  | [] => total
  | n :: rest =>
      if Z.ltb 200000 (total + n) then total + n
      else read_chunks (total + n) rest
  end.

Fixpoint speed_test_loop (E : Env) (urls : list string) : option Q :=
  match urls with
  | [] => None
  | u :: rest =>
      match requests_get E u with
      | ProbeRaises => speed_test_loop E rest
      | ProbeChunks lengths elapsed =>
          if Qlt_le_dec 0 elapsed
          then Some (inject_Z (read_chunks 0 lengths) / elapsed)%Q
          else speed_test_loop E rest
      end
  end.

Definition quick_speed_test (E : Env) : option Q :=
  speed_test_loop E speed_test_urls.

(** ** Format choice of the estimator *)

Definition q_truthy (x : option Q) : bool :=
  match x with
  | Some q => negb (Qeq_bool q 0)
  | None => false
  end.

(** [max(l, key=key)] on a non-empty list [best :: l]: the first element
    whose key is maximal. *)
Fixpoint max_by {A} (key : A -> Z) (best : A) (l : list A) : A :=
  match l with
  | [] => best
  | x :: l' => if Z.ltb (key best) (key x) then max_by key x l' else max_by key best l'
  end.

Definition max_of {A} (key : A -> Z) (l : list A) : option A :=
  match l with
  | [] => None
  | x :: l' => Some (max_by key x l')
  end.

(** The value of [sel] after the three-way choice on the quality string.
    [int(q[:-1])] is the value of the digits; CPython from 3.11 on refuses
    a text of more than 4300 digits there ([ValueError]), older ones do
    not, and statements about the cap are made for at most 4300 digits. *)
Definition select (formats : list Format) (q : string) : option Format :=
  if decide (q = "best") then last formats
  else if Py.endswith "p"%char q && Py.isdigit (Py.drop_last q) then
    let h := digits_value 0 (Py.drop_last q) in
    let cand :=
      List.filter
        (fun f => num_truthy (height f) && Z.leb (default 0 (height f)) h
                  && num_truthy (filesize f))
        formats in
    max_of (fun x => default 0 (num_or (height x) (Some 0))) cand
  else
    let cand := List.filter (fun f => num_truthy (filesize f)) formats in
    max_of (fun x => default 0 (filesize x)) cand.

(** [est_bytes] as computed inside the [try] of [App.estimate]. *)
Definition est_bytes (audio_only : bool) (q : string) (info : Info)
  : exc + option Q :=
  if audio_only then
    let abr := if q_truthy (abr info) then default 0%Q (abr info) else 128%Q in
    let dur := if q_truthy (duration info) then default 0%Q (duration info) else 0%Q in
    inr (Some ((abr * 1000 / 8) * dur)%Q)
  else
    match select (formats info) q with
    | None => inl (AttributeError "'NoneType' object has no attribute 'get'")
    | Some sel =>
        inr (inject_Z <$> num_or (filesize sel) (num_or (info_filesize info) None))
    end.

(** Python's [x / y] with a float among the two numbers: an int operand
    is converted to the float nearest to it, a float operand is itself
    (both are [round_float], the identity on floats), and the quotient is
    rounded to a float. *)
Definition float_div (a b : Q) : Q :=
  round_float (round_float a / round_float b).

(** [x % 60] and [int(x // 60)] on a positive float, as [float.__mod__]
    and [float.__floordiv__] compute them: the remainder is exact
    ([fmod]); the quotient is the floor of the float [(x - mod) / 60],
    plus one when that float is more than a half above its floor. *)
Definition float_mod_60 (x : Q) : Q :=
  (x - 60 * inject_Z (Qfloor (x / 60)))%Q.

Definition float_floordiv_60 (x : Q) : Z :=
  let div := round_float (round_float (x - float_mod_60 x) / 60) in
  let f := Qfloor div in
  if Qlt_le_dec (1 # 2) (div - inject_Z f) then f + 1 else f.

(** [eta_str] from the measured speed and the size.  A size too large to
    be converted to a float ([OverflowError]) and a quotient too large for
    a float ([inf], on which [int] raises) are beyond this definition. *)
Definition eta_str (spd est : option Q) : eta_text :=
  if q_truthy spd then
    let eta := if q_truthy est
               then Some (float_div (default 0%Q est) (default 0%Q spd))
               else None in
    match eta with
    | Some eta =>
        if negb (Qeq_bool eta 0)
        then Eta (float_floordiv_60 eta) (Qfloor (float_mod_60 eta))
        else EtaUnknown
    | None => EtaUnknown
    end
  else EtaUnknown.

(** ** App *)

Inductive dialog :=
| ShowWarning (title message : string)
| ShowInfo (title message : string)
| ShowErrorBox (title : string) (e : exc).

Record HistoryItem := {
  h_time : Q;
  h_url : string;
  h_file : string
}.

Module App.

Record t := {
  url_var : string;
  quality_var : string;
  save_folder_var : string;
  start_var : string;
  end_var : string;
  audio_only_var : bool;
  convert_mp3_var : bool;
  subs_var : bool;
  subs_lang_var : string;
  estimate_label_var : option (size_text * eta_text);
  status_var : status_text;
  progress_var : Q;
  tasks_q : Queue.t;
  queue_listbox : list string;
  history : list HistoryItem;
  log_area : list log_line;
  dialogs : list dialog
}.

Definition with_quality (v : string) (a : t) : t :=
  {| url_var := url_var a; quality_var := v;
     save_folder_var := save_folder_var a; start_var := start_var a;
     end_var := end_var a; audio_only_var := audio_only_var a;
     convert_mp3_var := convert_mp3_var a; subs_var := subs_var a;
     subs_lang_var := subs_lang_var a;
     estimate_label_var := estimate_label_var a;
     status_var := status_var a; progress_var := progress_var a;
     tasks_q := tasks_q a; queue_listbox := queue_listbox a;
     history := history a; log_area := log_area a; dialogs := dialogs a |}.

Definition with_estimate (v : option (size_text * eta_text)) (a : t) : t :=
  {| url_var := url_var a; quality_var := quality_var a;
     save_folder_var := save_folder_var a; start_var := start_var a;
     end_var := end_var a; audio_only_var := audio_only_var a;
     convert_mp3_var := convert_mp3_var a; subs_var := subs_var a;
     subs_lang_var := subs_lang_var a;
     estimate_label_var := v;
     status_var := status_var a; progress_var := progress_var a;
     tasks_q := tasks_q a; queue_listbox := queue_listbox a;
     history := history a; log_area := log_area a; dialogs := dialogs a |}.

Definition with_status (v : status_text) (a : t) : t :=
  {| url_var := url_var a; quality_var := quality_var a;
     save_folder_var := save_folder_var a; start_var := start_var a;
     end_var := end_var a; audio_only_var := audio_only_var a;
     convert_mp3_var := convert_mp3_var a; subs_var := subs_var a;
     subs_lang_var := subs_lang_var a;
     estimate_label_var := estimate_label_var a;
     status_var := v; progress_var := progress_var a;
     tasks_q := tasks_q a; queue_listbox := queue_listbox a;
     history := history a; log_area := log_area a; dialogs := dialogs a |}.

Definition with_progress (v : Q) (a : t) : t :=
  {| url_var := url_var a; quality_var := quality_var a;
     save_folder_var := save_folder_var a; start_var := start_var a;
     end_var := end_var a; audio_only_var := audio_only_var a;
     convert_mp3_var := convert_mp3_var a; subs_var := subs_var a;
     subs_lang_var := subs_lang_var a;
     estimate_label_var := estimate_label_var a;
     status_var := status_var a; progress_var := v;
     tasks_q := tasks_q a; queue_listbox := queue_listbox a;
     history := history a; log_area := log_area a; dialogs := dialogs a |}.

Definition with_tasks_q (v : Queue.t) (a : t) : t :=
  {| url_var := url_var a; quality_var := quality_var a;
     save_folder_var := save_folder_var a; start_var := start_var a;
     end_var := end_var a; audio_only_var := audio_only_var a;
     convert_mp3_var := convert_mp3_var a; subs_var := subs_var a;
     subs_lang_var := subs_lang_var a;
     estimate_label_var := estimate_label_var a;
     status_var := status_var a; progress_var := progress_var a;
     tasks_q := v; queue_listbox := queue_listbox a;
     history := history a; log_area := log_area a; dialogs := dialogs a |}.

Definition with_queue_listbox (v : list string) (a : t) : t :=
  {| url_var := url_var a; quality_var := quality_var a;
     save_folder_var := save_folder_var a; start_var := start_var a;
     end_var := end_var a; audio_only_var := audio_only_var a;
     convert_mp3_var := convert_mp3_var a; subs_var := subs_var a;
     subs_lang_var := subs_lang_var a;
     estimate_label_var := estimate_label_var a;
     status_var := status_var a; progress_var := progress_var a;
     tasks_q := tasks_q a; queue_listbox := v;
     history := history a; log_area := log_area a; dialogs := dialogs a |}.

Definition with_history (v : list HistoryItem) (a : t) : t :=
  {| url_var := url_var a; quality_var := quality_var a;
     save_folder_var := save_folder_var a; start_var := start_var a;
     end_var := end_var a; audio_only_var := audio_only_var a;
     convert_mp3_var := convert_mp3_var a; subs_var := subs_var a;
     subs_lang_var := subs_lang_var a;
     estimate_label_var := estimate_label_var a;
     status_var := status_var a; progress_var := progress_var a;
     tasks_q := tasks_q a; queue_listbox := queue_listbox a;
     history := v; log_area := log_area a; dialogs := dialogs a |}.

Definition with_log_area (v : list log_line) (a : t) : t :=
  {| url_var := url_var a; quality_var := quality_var a;
     save_folder_var := save_folder_var a; start_var := start_var a;
     end_var := end_var a; audio_only_var := audio_only_var a;
     convert_mp3_var := convert_mp3_var a; subs_var := subs_var a;
     subs_lang_var := subs_lang_var a;
     estimate_label_var := estimate_label_var a;
     status_var := status_var a; progress_var := progress_var a;
     tasks_q := tasks_q a; queue_listbox := queue_listbox a;
     history := history a; log_area := v; dialogs := dialogs a |}.

Definition with_dialogs (v : list dialog) (a : t) : t :=
  {| url_var := url_var a; quality_var := quality_var a;
     save_folder_var := save_folder_var a; start_var := start_var a;
     end_var := end_var a; audio_only_var := audio_only_var a;
     convert_mp3_var := convert_mp3_var a; subs_var := subs_var a;
     subs_lang_var := subs_lang_var a;
     estimate_label_var := estimate_label_var a;
     status_var := status_var a; progress_var := progress_var a;
     tasks_q := tasks_q a; queue_listbox := queue_listbox a;
     history := history a; log_area := log_area a; dialogs := v |}.

(** [messagebox.show...(...)] *)
Definition messagebox (d : dialog) (a : t) : t :=
  with_dialogs (dialogs a ++ [d]) a.

Definition log (msg : log_line) (a : t) : t :=
  with_log_area (log_area a ++ [msg]) a.

Definition set_status (txt : status_text) (a : t) : t := with_status txt a.

Definition update_progress (pct : Q) (a : t) : t := with_progress pct a.

(** [add_history]; [now] is the reading of [time.time()]. *)
Definition add_history (now : Q) (url filepath : string) (a : t) : t :=
  with_history
    ({| h_time := now; h_url := url; h_file := filepath |} :: history a) a.

(** What a scheduled thunk does when the Tk loop runs it: the window it
    leaves, or the exception it raises.  The thunk of a failed download is
    [lambda: messagebox.showerror("Download failed", str(e))], where [e] is
    the variable of the [except] clause that schedules it.  Python unbinds
    that variable when the clause is left, and the clause is left by the
    [return] that follows [schedule]; the thunk runs on the Tk loop after
    that, finds [e] unbound, and raises [NameError] before [showerror] is
    called. *)
Definition unbound_e : string :=
  "cannot access free variable 'e' where it is not associated with a value in enclosing scope".

Definition run_thunk (now : Q) (call : ui_call) (a : t) : exc + t :=
  match call with
  | SetStatus txt => inr (set_status txt a)
  | UpdateProgress pct => inr (update_progress pct a)
  | AddHistory url file => inr (add_history now url file a)
  | ShowError _ _ => inl (NameError unbound_e)
  end.

(** The Tk loop running one scheduled thunk: an exception of the thunk is
    printed by [report_callback_exception] and the window stays as it
    was. *)
Definition dispatch (now : Q) (call : ui_call) (a : t) : t :=
  match run_thunk now call a with
  | inr a' => a'
  | inl _ => a
  end.

(** The Tk loop running, in order, the thunks a worker scheduled. *)
Fixpoint deliver (now : Q) (evs : list event) (a : t) : t :=
  match evs with
  | [] => a
  | Schedule call :: evs' => deliver now evs' (dispatch now call a)
  | _ :: evs' => deliver now evs' a
  end.

Definition on_audio_toggle (a : t) : t :=
  if audio_only_var a then with_quality "audio" a else a.

Definition add_to_queue (a : t) : t :=
  let url := Py.strip (url_var a) in
  if negb (Py.truthy url) then
    messagebox (ShowWarning "Input required" "Please paste a YouTube link.") a
  else
    let opts :=
      {| quality := quality_var a;
         save_folder := save_folder_var a;
         start := start_var a;
         end_ := end_var a;
         audio_only := audio_only_var a;
         convert_mp3 := convert_mp3_var a;
         subs := subs_var a;
         subs_lang := subs_lang_var a;
         noplaylist :=
           if Py.is_infix "playlist" (Py.lower url) then false else true |} in
    log (Line "Added to queue.")
      (with_queue_listbox
         (queue_listbox a ++ [url +:+ " [" +:+ quality opts +:+ "]"])
         (with_tasks_q (Queue.put (url, opts) (tasks_q a)) a)).

(** [clear_queue]; the first component is the value the call returns
    ([None]: the method has no [return]). *)
Definition clear_queue (a : t) : option nat * t :=
  let a1 :=
    with_tasks_q
      {| Queue.queue := [];
         Queue.unfinished_tasks := Queue.unfinished_tasks (tasks_q a) |} a in
  (None, log (Line "Queue cleared.") (with_queue_listbox [] a1)).

(** [estimate]: the [try] body yields the label, or the exception that
    the handler turns into an error box. *)
Definition estimate_try (E : Env) (url : string) (a : t)
  : exc + (size_text * eta_text) :=
  match ydl_info E url with
  | inl e => inl e
  | inr info =>
      match est_bytes (audio_only_var a) (quality_var a) info with
      | inl e => inl e
      | inr est =>
          let spd := quick_speed_test E in
          inr (human_size est, eta_str spd est)
      end
  end.

Definition estimate (E : Env) (a : t) : t :=
  let url := Py.strip (url_var a) in
  if negb (Py.truthy url) then
    messagebox (ShowWarning "Input" "Paste a YouTube URL first.") a
  else
    match estimate_try E url a with
    | inr (size, eta) =>
        log (LineEstimate size eta) (with_estimate (Some (size, eta)) a)
    | inl e => messagebox (ShowErrorBox "Estimate failed" e) a
    end.

End App.

(** ** Vocabulary of the statements *)



(** The events of one call of the progress hook, and of a run of calls. *)
Definition progress_events (d : progress_dict) : list event :=
  events (snd (DownloadWorker.progress d {| files := ∅; events := [] |})).

Definition hooks_events (ds : list progress_dict) : list event :=
  concat (map progress_events ds).

(** Events that only a stage after Fetch produces: a run of the media tool,
    a file removal, a subtitle download, the history entry and the final
    ["Ready"] status. *)
Definition later_stage_event (ev : event) : bool :=
  match ev with
  | Spawn _ | Remove _ | SubDownload _ _ => true
  | Schedule (AddHistory _ _) => true
  | Schedule (SetStatus (Status txt)) => bool_decide (txt = "Ready")
  | _ => false
  end.

(** The exception, if any, that [subprocess.run(argv, check=check)] raises
    on the outcome [p]. *)
Definition run_error (p : proc) (argv : list string) (check : bool) : option exc :=
  match p with
  | NotStarted e => Some e
  | Exited rc _ =>
      if check && negb (bool_decide (rc = 0))
      then Some (CalledProcessError rc argv) else None
  end.

(** Files on disk after the run [p] of a command whose output file is [out]. *)
Definition after_run (p : proc) (out : string) (fs : gset string) : gset string :=
  if leaves p then fs ∪ {[ out ]} else fs.


(** The final UI updates of a job that delivers [out_file]. *)
Definition finalize_events (url out_file : string) : list event :=
  [Schedule (AddHistory url out_file);
   Schedule (UpdateProgress 0%Q);
   Schedule (SetStatus (Status "Ready"));
   Log (Line ("Completed: " +:+ out_file))].

(** The events of the subtitle stage. *)
Definition subtitles_events (E : Env) (url : string) (opts : Opts) : list event :=
  if subs opts then
    SubDownload url (DownloadWorker.sub_opts opts)
      :: match ydl_download E url (DownloadWorker.sub_opts opts) with
         | Some e => [Log (LineExc "Sub download failed: " e)]
         | None => []
         end
  else [].

(** The run [p] exited with status 0. *)
Definition succeeded (p : proc) : bool :=
  match p with
  | Exited rc _ => bool_decide (rc = 0)
  | NotStarted _ => false
  end.

(** The run [p] exited with a status other than 0. *)
Definition exited_nonzero (p : proc) : bool :=
  match p with
  | Exited rc _ => negb (bool_decide (rc = 0))
  | NotStarted _ => false
  end.

(** The media-tool part of the Trim stage (the fast path, then the
    re-encoding path if it is tried) ends in a successful run. *)
Definition trim_tool_ok (E : Env) (opts : Opts) (out_file : string) : bool :=
  succeeded (subprocess E (DownloadWorker.cmd_copy E opts out_file))
  || exited_nonzero (subprocess E (DownloadWorker.cmd_copy E opts out_file))
     && succeeded (subprocess E (DownloadWorker.cmd_re E opts out_file)).

(** The media-tool part of the Trim stage, run on its own, and what it
    leaves behind: the files, the command lines, the exception that ends
    it. *)
Definition trim_tool (E : Env) (opts : Opts) (f : string) : M unit :=
  returncode <- subprocess_run E (DownloadWorker.cmd_copy E opts f) false ;;
  if negb (bool_decide (returncode = 0))
  then subprocess_run E (DownloadWorker.cmd_re E opts f) true ;; ret tt
  else ret tt.

Definition trim_tool_files (E : Env) (opts : Opts) (f : string)
    (fs : gset string) : gset string :=
  let fs1 := after_run (subprocess E (DownloadWorker.cmd_copy E opts f))
                       (DownloadWorker.trimmed f) fs in
  if exited_nonzero (subprocess E (DownloadWorker.cmd_copy E opts f))
  then after_run (subprocess E (DownloadWorker.cmd_re E opts f))
                 (DownloadWorker.trimmed f) fs1
  else fs1.

Definition trim_tool_spawns (E : Env) (opts : Opts) (f : string)
  : list (list string) :=
  DownloadWorker.cmd_copy E opts f ::
    if exited_nonzero (subprocess E (DownloadWorker.cmd_copy E opts f))
    then [DownloadWorker.cmd_re E opts f] else [].

Definition trim_tool_error (E : Env) (opts : Opts) (f : string) : option exc :=
  match subprocess E (DownloadWorker.cmd_copy E opts f) with
  | NotStarted e => Some e
  | Exited rc _ =>
      if bool_decide (rc = 0) then None
      else run_error (subprocess E (DownloadWorker.cmd_re E opts f))
                     (DownloadWorker.cmd_re E opts f) true
  end.

(** The world in which the Convert stage starts. *)
Definition after_download (E : Env) (url : string) (opts : Opts) (w : World)
  : World :=
  {| files := files w ∪ list_to_set
                (on_disk (ydl_extract_info E url (DownloadWorker.ydl_opts opts)));
     events := events w
                 ++ [Log (Line ("Start: " +:+ url));
                     Schedule (SetStatus (Status "Downloading..."));
                     Extract url (DownloadWorker.ydl_opts opts)]
                 ++ hooks_events
                      (hook_calls (ydl_extract_info E url (DownloadWorker.ydl_opts opts))) |}.

(** ** Sample jobs and environments *)

Definition w0 : World := {| files := ∅; events := [] |}.

Definition plain_opts : Opts :=
  {| quality := "best"; save_folder := "/d"; start := ""; end_ := "";
     audio_only := false; convert_mp3 := false; subs := false;
     subs_lang := "en"; noplaylist := true |}.

Definition mp3_opts : Opts :=
  {| quality := "audio"; save_folder := "/d"; start := ""; end_ := "";
     audio_only := true; convert_mp3 := true; subs := false;
     subs_lang := "en"; noplaylist := true |}.

Definition trim_opts : Opts :=
  {| quality := "720p"; save_folder := "/d"; start := "10"; end_ := "90";
     audio_only := false; convert_mp3 := false; subs := false;
     subs_lang := "en"; noplaylist := true |}.

Definition sample_hooks : list progress_dict :=
  [{| pd_status := Some "downloading"; total_bytes := Some 1000;
      total_bytes_estimate := None; downloaded_bytes := Some 250 |};
   {| pd_status := Some "finished"; total_bytes := Some 1000;
      total_bytes_estimate := None; downloaded_bytes := Some 1000 |}].

Definition sample_info : Info :=
  {| abr := None; duration := Some 60%Q;
     formats := [{| height := Some 720; filesize := None |}];
     info_filesize := None |}.

Definition make_env (fetch : fetched) (tool : list string -> proc) : Env :=
  {| int_of_float := int_float;
     ydl_extract_info := fun _ _ => fetch;
     subprocess := tool;
     ydl_download := fun _ _ => None;
     ydl_info := fun _ => inr sample_info;
     requests_get := fun _ => ProbeRaises |}.

Definition fetch_ok : fetched :=
  {| hook_calls := sample_hooks; on_disk := ["/d/v.webm"];
     outcome := inr "/d/v.webm" |}.

Definition fetch_error : exc := OtherError "DownloadError" "Video unavailable".

Definition fetch_failed : fetched :=
  {| hook_calls := []; on_disk := []; outcome := inl fetch_error |}.

(** The fetcher fails. *)
Definition env_fetch_fails : Env := make_env fetch_failed (fun _ => Exited 0 false).

(** Everything works. *)
Definition env_ok : Env := make_env fetch_ok (fun _ => Exited 0 false).

(** [ffmpeg] exits with status 1 and leaves a partial output behind. *)
Definition env_tool_fails : Env := make_env fetch_ok (fun _ => Exited 1 true).


(** A window with a URL typed in, video quality 720p, nothing queued. *)
Definition sample_app : App.t :=
  {| App.url_var := "https://example.com/watch?v=1";
     App.quality_var := "720p";
     App.save_folder_var := "/d";
     App.start_var := "";
     App.end_var := "";
     App.audio_only_var := false;
     App.convert_mp3_var := false;
     App.subs_var := false;
     App.subs_lang_var := "en";
     App.estimate_label_var := None;
     App.status_var := Status "Ready";
     App.progress_var := 0%Q;
     App.tasks_q := Queue.empty;
     App.queue_listbox := [];
     App.history := [];
     App.log_area := [];
     App.dialogs := [] |}.

(** The same window after two presses of "Add to Queue". *)
Definition busy_app : App.t := App.add_to_queue (App.add_to_queue sample_app).

(** ** More of the program *)

(** [s.replace(c, '')] for a one-character [c] *)
Fixpoint remove_char (c : ascii) (s : string) : string :=
  match s with
  | "" => ""
  | String a s' => if decide (a = c) then remove_char c s' else String a (remove_char c s')
  end.

(** The characters of [bad] in [safe_filename]: the nine that Windows
    refuses, then newline, carriage return and tab. *)
Definition bad : list ascii :=
  ["<"; ">"; ":"; "034"; "/"; "092"; "|"; "?"; "*"; "010"; "013"; "009"]%char.

Definition safe_filename (name : string) : string :=
  Py.strip (Py.take 120 (List.fold_left (fun name c => remove_char c name) bad name)).

(** [os.path.basename(p)] (POSIX flavour) *)
Definition basename (p : string) : string :=
  Py.drop (Z.to_nat (Py.rfind "/"%char p + 1)) p.

(** [refresh_history_list]: the lines the history list box holds
    afterwards, each with the time stamp it formats and the base name it
    prints. *)
Definition refresh_history_list (a : App.t) : list (Q * string) :=
  map (fun h => (h_time h, basename (h_file h))) (take 100 (App.history a)).

(** *** The worker pool of [App] *)

Module Pool.

(** The window together with its list of workers (the [running] flag of
    each), the worker limit and the spin box. *)
Record t := {
  app : App.t;
  workers : list bool;
  max_workers : Z;
  worker_count_var : Z
}.

Definition start_workers (p : t) : t :=
  if decide (0 < length (workers p))%nat then
    {| app := App.messagebox (ShowInfo "Info" "Workers already running.") (app p);
       workers := workers p;
       max_workers := max_workers p;
       worker_count_var := worker_count_var p |}
  else
    let max_workers := Z.max 1 (worker_count_var p) in
    let workers := workers p ++ replicate (Z.to_nat max_workers) true in
    {| app := App.set_status (Status "Running")
                (App.log (Line ("Started " +:+ pretty (length workers) +:+ " workers."))
                   (app p));
       workers := workers;
       max_workers := max_workers;
       worker_count_var := worker_count_var p |}.

Definition update_workers (p : t) : t :=
  let max_workers := Z.max 1 (worker_count_var p) in
  {| app := App.log (Line ("Worker limit set to " +:+ pretty max_workers)) (app p);
     workers := workers p;
     max_workers := max_workers;
     worker_count_var := worker_count_var p |}.

Definition stop_workers (p : t) : t :=
  {| app := App.log (Line "Workers stopped.")
              (App.set_status (Status "Ready") (app p));
     workers := [];
     max_workers := max_workers p;
     worker_count_var := worker_count_var p |}.

(** The spin box is turned to [n]; its [command] is [update_workers]. *)
Definition spin (n : Z) (p : t) : t :=
  update_workers
    {| app := app p; workers := workers p; max_workers := max_workers p;
       worker_count_var := n |}.

End Pool.

(** ** More vocabulary *)

(** The world after one worker has processed [tasks] in order. *)
Fixpoint process_all (E : Env) (tasks : list Task) (w : World) : World :=
  match tasks with
  | [] => w
  | task :: rest => process_all E rest (snd (DownloadWorker.process_task E task w))
  end.

(** The units of [human_size], in order. *)
Definition size_units : list string := ["B"; "KB"; "MB"; "GB"; "TB"; "PB"].

(** A format that the estimator may pick for the height cap [h]. *)
Definition eligible (h : Z) (f : Format) : bool :=
  num_truthy (height f) && Z.leb (default 0 (height f)) h && num_truthy (filesize f).

(** ** More sample environments *)

(** The first probe address times out; the second sends thirty chunks of
    8192 bytes in half a second. *)
Definition env_probe : Env :=
  {| int_of_float := int_float;
     ydl_extract_info := fun _ _ => fetch_ok;
     subprocess := fun _ => Exited 0 false;
     ydl_download := fun _ _ => None;
     ydl_info := fun _ => inr sample_info;
     requests_get := fun u =>
       if decide (u = "https://www.cloudflare.com/img/cf-horizontal-bw.svg")
       then ProbeChunks (replicate 30 8192) (1 # 2)
       else ProbeRaises |}.

(** Three formats with declared sizes, and one without. *)
Definition sample_formats : list Format :=
  [{| height := Some 480; filesize := Some 1000 |};
   {| height := Some 1080; filesize := Some 9000 |};
   {| height := Some 720; filesize := None |};
   {| height := Some 720; filesize := Some 4000 |}].


(** An event that is not the scheduling of a history entry. *)
Definition no_history (ev : event) : bool :=
  match ev with
  | Schedule (AddHistory _ _) => false
  | _ => true
  end.

(** * Properties *)

(** ** Strings *)

Lemma string_app_cons c s t : String c s +:+ t = String c (s +:+ t).
Proof. reflexivity. Qed.

Lemma string_app_empty_r s : s +:+ "" = s.
Proof. induction s as [|c s IH]; [done|]. by rewrite string_app_cons, IH. Qed.





(** What [rstrip] leaves does not start with a blank unless its input did. *)
Lemma rstrip_head c s :
  Py.is_space c = false ->
  exists r, Py.rstrip (String c s) = String c r.
Proof.
  intros Hc. simpl. rewrite Hc. destruct (Py.rstrip s); eauto.
Qed.

Lemma lstrip_head s :
  Py.lstrip s = "" \/ exists c r, Py.lstrip s = String c r /\ Py.is_space c = false.
Proof.
  induction s as [|c s IH]; simpl; [by left|].
  destruct (Py.is_space c) eqn:Hc; [done|]. right. eauto.
Qed.

Lemma rstrip_idem s : Py.rstrip (Py.rstrip s) = Py.rstrip s.
Proof.
  induction s as [|c s IH]; simpl; [done|].
  destruct (Py.rstrip s) as [|c' r] eqn:Hr.
  - destruct (Py.is_space c) eqn:Hc; simpl; [done|]. by rewrite Hc.
  - simpl in *. by rewrite IH.
Qed.

Lemma strip_idem s : Py.strip (Py.strip s) = Py.strip s.
Proof.
  unfold Py.strip.
  destruct (lstrip_head s) as [->|(c & r & -> & Hc)]; [done|].
  destruct (rstrip_head c r Hc) as [r' Hr']. rewrite Hr'. simpl Py.lstrip.
  rewrite Hc, <- Hr'. apply rstrip_idem.
Qed.

Lemma contains_app_r c s1 s2 :
  Py.contains c s2 = true -> Py.contains c (s1 +:+ s2) = true.
Proof.
  intros H. induction s1 as [|a s1 IH]; simpl; [done|]. by case_decide.
Qed.

Lemma contains_app_l c s1 s2 :
  Py.contains c s1 = true -> Py.contains c (s1 +:+ s2) = true.
Proof.
  induction s1 as [|a s1 IH]; simpl; [done|]. case_decide; auto.
Qed.

Lemma endswith_drop_last c s :
  Py.endswith c s = true -> s = Py.drop_last s +:+ String c "".
Proof.
  unfold Py.endswith. induction s as [|a s IH]; [done|].
  destruct s as [|b s].
  - simpl. intros ->%bool_decide_eq_true. done.
  - intros H. change (String a (String b s) =
                      String a (Py.drop_last (String b s) +:+ String c "")).
    f_equal. apply IH, H.
Qed.

Lemma last_char_app s c : Py.last_char (s +:+ String c "") = Some c.
Proof.
  induction s as [|a s IH]; simpl; [done|].
  destruct (s +:+ String c "") eqn:E; [by destruct s|done].
Qed.

Lemma drop_last_app s c : Py.drop_last (s +:+ String c "") = s.
Proof.
  induction s as [|a s IH]; simpl; [done|].
  destruct (s +:+ String c "") eqn:E; [by destruct s|].
  by rewrite IH.
Qed.

Lemma take_drop n s : Py.take n s +:+ Py.drop n s = s.
Proof.
  revert s. induction n as [|n IH]; intros [|c s]; simpl; try done.
  by rewrite string_app_cons, IH.
Qed.

Lemma splitext_app p : fst (OsPath.splitext p) +:+ snd (OsPath.splitext p) = p.
Proof.
  unfold OsPath.splitext. case_decide; simpl.
  - destruct (OsPath.has_non_dot _ _); simpl; [apply take_drop|].
    apply string_app_empty_r.
  - apply string_app_empty_r.
Qed.

Lemma string_app_length s1 s2 :
  String.length (s1 +:+ s2) = (String.length s1 + String.length s2)%nat.
Proof.
  induction s1 as [|c s1 IH]; [done|]. rewrite string_app_cons. simpl. by rewrite IH.
Qed.


(** A few values, as checks of the translation. *)
Example strip_padded : Py.strip "  1:00 " = "1:00".
Proof. reflexivity. Qed.

Example splitext_plain : OsPath.splitext "/a/b.c/d.tar.gz" = ("/a/b.c/d.tar", ".gz").
Proof. reflexivity. Qed.

Example splitext_dotfile : OsPath.splitext "/a/b.c/.bashrc" = ("/a/b.c/.bashrc", "").
Proof. reflexivity. Qed.

Example splitext_no_ext : OsPath.splitext "/a/b.c/d" = ("/a/b.c/d", "").
Proof. reflexivity. Qed.

Example hms_negative : hms (-90) = "-1:58:30".
Proof. reflexivity. Qed.

Example select_format_720p :
  DownloadWorker.select_format trim_opts = "bestvideo[height<=720]+bestaudio/best".
Proof. reflexivity. Qed.

(** ** Decimal numerals *)












Lemma hms_contains_colon sec : Py.contains ":"%char (hms sec) = true.
Proof. unfold hms. by apply contains_app_r. Qed.






(** ** Floats *)

Lemma Qratio_bounds (N D A B : Q) :
  (0 < A -> 0 < B -> A <= N -> N < 2 * A -> B <= D -> D < 2 * B ->
   A / B / 2 <= N / D /\ N / D < 2 * (A / B))%Q.
Proof.
  intros HA HB H1 H2 H3 H4.
  assert (0 < D)%Q as HD by lra.
  split.
  - apply Qle_shift_div_l; [done|].
    assert (A / B / 2 * D == (A * D) / (2 * B))%Q as -> by (field; lra).
    apply Qle_shift_div_r; [lra|]. nra.
  - apply Qlt_shift_div_r; [done|].
    assert (2 * (A / B) * D == (2 * A * D) / B)%Q as -> by (field; lra).
    apply Qlt_shift_div_l; [done|]. nra.
Qed.

Lemma Qpow2_pos (k : Z) : (0 < 2 ^ k)%Q.
Proof. by apply Qpower_0_lt. Qed.

Lemma Qpow2_succ (k : Z) : (2 ^ (k + 1) == 2 * 2 ^ k)%Q.
Proof. rewrite Qpower_plus by done. rewrite Qpower_1_r. ring. Qed.

Lemma Qpow2_pred (k : Z) : (2 ^ (k - 1) == 2 ^ k / 2)%Q.
Proof. rewrite Qpower_minus by done. by rewrite Qpower_1_r. Qed.

Lemma Qlog2_spec (q : Q) :
  (0 < q)%Q -> (2 ^ Qlog2 q <= q)%Q /\ (q < 2 ^ (Qlog2 q + 1))%Q.
Proof.
  intros Hq. destruct q as [n d]. unfold Qlog2. cbn [Qnum Qden].
  assert (0 < n)%Z as Hn by (unfold Qlt in Hq; simpl in Hq; lia).
  set (a := Z.log2 n). set (b := Z.log2 (Z.pos d)).
  destruct (Z.log2_spec n Hn) as [Ha1 Ha2]. fold a in Ha1, Ha2.
  destruct (Z.log2_spec (Z.pos d) eq_refl) as [Hb1 Hb2]. fold b in Hb1, Hb2.
  assert (0 <= a)%Z as Ha0 by apply Z.log2_nonneg.
  assert (0 <= b)%Z as Hb0 by apply Z.log2_nonneg.
  assert (2 ^ a <= inject_Z n)%Q as HA1.
  { rewrite <- (Zpower_Qpower 2 a) by done. by rewrite <- Zle_Qle. }
  assert (inject_Z n < 2 * 2 ^ a)%Q as HA2.
  { rewrite <- Qpow2_succ. rewrite <- (Zpower_Qpower 2 (a + 1)) by lia.
    rewrite <- Zlt_Qlt. by rewrite <- Z.add_1_r in Ha2. }
  assert (2 ^ b <= inject_Z (Z.pos d))%Q as HB1.
  { rewrite <- (Zpower_Qpower 2 b) by done. by rewrite <- Zle_Qle. }
  assert (inject_Z (Z.pos d) < 2 * 2 ^ b)%Q as HB2.
  { rewrite <- Qpow2_succ. rewrite <- (Zpower_Qpower 2 (b + 1)) by lia.
    rewrite <- Zlt_Qlt. by rewrite <- Z.add_1_r in Hb2. }
  destruct (Qratio_bounds _ _ _ _ (Qpow2_pos a) (Qpow2_pos b) HA1 HA2 HB1 HB2)
    as [Hlo Hhi].
  rewrite <- (Qpower_minus 2 a b) in Hlo, Hhi by done.
  rewrite <- (Qmake_Qdiv n d) in Hlo, Hhi.
  destruct (Qle_bool (2 ^ (a - b)) (n # d)) eqn:Hle.
  - apply Qle_bool_iff in Hle. split; [done|]. by rewrite Qpow2_succ.
  - assert (n # d < 2 ^ (a - b))%Q as Hlt.
    { apply Qnot_le_lt. intros H. apply Qle_bool_iff in H. congruence. }
    split.
    + by rewrite Qpow2_pred.
    + by replace (a - b - 1 + 1)%Z with (a - b)%Z by lia.
Qed.

Lemma Qlog2_unique (q : Q) (k : Z) :
  (0 < q)%Q -> (2 ^ k <= q)%Q -> (q < 2 ^ (k + 1))%Q -> Qlog2 q = k.
Proof.
  intros Hq Hlo Hhi. destruct (Qlog2_spec q Hq) as [Hlo' Hhi'].
  assert (2 ^ k < 2 ^ (Qlog2 q + 1))%Q as H1 by (eapply Qle_lt_trans; eauto).
  assert (2 ^ Qlog2 q < 2 ^ (k + 1))%Q as H2 by (eapply Qle_lt_trans; eauto).
  apply Qpower_lt_compat_l_inv in H1; [|done].
  apply Qpower_lt_compat_l_inv in H2; [|done]. lia.
Qed.

Lemma Qlog2_comp (p q : Q) : (0 < p)%Q -> (p == q)%Q -> Qlog2 p = Qlog2 q.
Proof.
  intros Hp Heq. destruct (Qlog2_spec p Hp) as [Hlo Hhi].
  symmetry. apply Qlog2_unique; rewrite <- ?Heq; done.
Qed.

Lemma round_half_even_comp (x y : Q) :
  (x == y)%Q -> round_half_even x = round_half_even y.
Proof.
  intros Heq. unfold round_half_even.
  rewrite (Qfloor_comp x y Heq).
  assert (x - inject_Z (Qfloor y) == y - inject_Z (Qfloor y))%Q as H by (by rewrite Heq).
  by rewrite (Qcompare_comp _ _ H _ _ (Qeq_refl (1 # 2))).
Qed.

Lemma round_half_even_Z (z : Z) : round_half_even (inject_Z z) = z.
Proof.
  unfold round_half_even. rewrite Qfloor_Z.
  destruct (inject_Z z - inject_Z z ?= 1 # 2)%Q eqn:Hc; [|done|].
  - apply Qeq_alt in Hc. lra.
  - apply Qgt_alt in Hc. lra.
Qed.

Lemma round_half_even_error (x : Q) :
  (- (1 # 2) <= inject_Z (round_half_even x) - x)%Q /\
  (inject_Z (round_half_even x) - x <= 1 # 2)%Q.
Proof.
  unfold round_half_even.
  pose proof (Qfloor_le x) as Hlo. pose proof (Qlt_floor x) as Hhi.
  rewrite inject_Z_plus in Hhi.
  destruct (x - inject_Z (Qfloor x) ?= 1 # 2)%Q eqn:Hc.
  - apply Qeq_alt in Hc. destruct (Z.even (Qfloor x)).
    + split; lra.
    + rewrite inject_Z_plus. change (inject_Z 1) with 1%Q in *. split; lra.
  - apply Qlt_alt in Hc. split; lra.
  - apply Qgt_alt in Hc. rewrite inject_Z_plus.
    change (inject_Z 1) with 1%Q in *. split; lra.
Qed.


Lemma ulp_exp_comp (p q : Q) : (0 < p)%Q -> (p == q)%Q -> ulp_exp p = ulp_exp q.
Proof. intros Hp Heq. unfold ulp_exp. by rewrite (Qlog2_comp p q Hp Heq). Qed.

Lemma round_pos_comp (p q : Q) :
  (0 < p)%Q -> (p == q)%Q -> (round_pos p == round_pos q)%Q.
Proof.
  intros Hp Heq. unfold round_pos. cbv zeta.
  rewrite (ulp_exp_comp p q Hp Heq).
  rewrite (round_half_even_comp (p / 2 ^ ulp_exp q) (q / 2 ^ ulp_exp q)); [done|].
  by rewrite Heq.
Qed.

Lemma round_float_pos (q : Q) : (0 < q)%Q -> (round_float q == round_pos q)%Q.
Proof.
  intros Hq. unfold round_float. cbv zeta.
  assert (0 < Qred q)%Q as Hr by (by rewrite Qred_correct).
  destruct (Qred q ?= 0)%Q eqn:Hc.
  - apply Qeq_alt in Hc. lra.
  - apply Qlt_alt in Hc. lra.
  - apply round_pos_comp; [done|apply Qred_correct].
Qed.


Lemma round_float_comp (p q : Q) : (p == q)%Q -> round_float p = round_float q.
Proof. intros H. unfold round_float. by rewrite (Qred_complete p q H). Qed.



(** The rounding error is at most half a unit in the last place. *)
Lemma round_pos_error (q : Q) :
  (0 < q)%Q ->
  (- (2 ^ ulp_exp q / 2) <= round_pos q - q)%Q /\
  (round_pos q - q <= 2 ^ ulp_exp q / 2)%Q.
Proof.
  intros Hq. unfold round_pos. cbv zeta.
  set (e := ulp_exp q). pose proof (Qpow2_pos e) as He.
  destruct (round_half_even_error (q / 2 ^ e)) as [Hlo Hhi].
  set (m := inject_Z (round_half_even (q / 2 ^ e))) in *.
  assert (q == q / 2 ^ e * 2 ^ e)%Q as Hq' by (field; lra).
  set (x := (q / 2 ^ e)%Q) in *.
  set (P := (2 ^ e)%Q) in *.
  assert (m * P - q == (m - x) * P)%Q as -> by (rewrite Hq' at 1; ring).
  assert (P / 2 == (1 # 2) * P)%Q as -> by field.
  assert (- (1 # 2) * P <= (m - x) * P)%Q
    by (apply Qmult_le_compat_r; lra).
  assert ((m - x) * P <= (1 # 2) * P)%Q
    by (apply Qmult_le_compat_r; lra).
  split; lra.
Qed.

Lemma round_float_error (q : Q) :
  (2 ^ (-1022) <= q)%Q ->
  (- (q / 2 ^ 53) <= round_float q - q)%Q /\ (round_float q - q <= q / 2 ^ 53)%Q.
Proof.
  intros Hq. pose proof (Qpow2_pos (-1022)) as H0.
  assert (0 < q)%Q as Hpos by lra.
  rewrite round_float_pos by done.
  destruct (round_pos_error q Hpos) as [Hlo Hhi].
  destruct (Qlog2_spec q Hpos) as [Hl1 Hl2].
  assert (-1022 <= Qlog2 q)%Z as Hk.
  { assert (2 ^ (-1022) < 2 ^ (Qlog2 q + 1))%Q as H by (eapply Qle_lt_trans; eauto).
    apply Qpower_lt_compat_l_inv in H; [lia|done]. }
  assert (ulp_exp q = Qlog2 q - 52)%Z as He by (unfold ulp_exp; lia).
  rewrite He in Hlo, Hhi.
  assert (2 ^ (Qlog2 q - 52) / 2 == 2 ^ Qlog2 q / 2 ^ 53)%Q as Hu.
  { rewrite Qpower_minus by done. change (2 ^ 53)%Q with (2 ^ 52 * 2)%Q.
    field. }
  rewrite Hu in Hlo, Hhi.
  assert (2 ^ Qlog2 q / 2 ^ 53 <= q / 2 ^ 53)%Q as Hle.
  { apply Qmult_le_compat_r; [done|]. apply Qlt_le_weak, Qinv_lt_0_compat. done. }
  split; lra.
Qed.

Lemma round_float_positive (q : Q) :
  (2 ^ (-1022) <= q)%Q -> (0 < round_float q)%Q.
Proof.
  intros Hq. destruct (round_float_error q Hq) as [Hlo _].
  pose proof (Qpow2_pos (-1022)) as H0.
  unfold Qdiv in Hlo. change (/ 2 ^ 53)%Q with (1 # 9007199254740992)%Q in Hlo.
  lra.
Qed.

Lemma Qlog2_inject_Z (n : Z) : (0 < n)%Z -> Qlog2 (inject_Z n) = Z.log2 n.
Proof.
  intros Hn. destruct (Z.log2_spec n Hn) as [Hlo Hhi].
  pose proof (Z.log2_nonneg n) as H0.
  apply Qlog2_unique.
  - change 0%Q with (inject_Z 0). by rewrite <- Zlt_Qlt.
  - rewrite <- (Zpower_Qpower 2) by done. by rewrite <- Zle_Qle.
  - rewrite <- (Zpower_Qpower 2) by lia. rewrite <- Zlt_Qlt.
    by rewrite <- Z.add_1_r in Hhi.
Qed.

(** Every integer below 2^53 is a float. *)
Lemma round_float_int (n : Z) :
  (0 <= n < 2 ^ 53)%Z -> (round_float (inject_Z n) == inject_Z n)%Q.
Proof.
  intros [Hn0 Hn]. destruct (decide (n = 0%Z)) as [->|Hne]; [done|].
  assert (0 < n)%Z as Hpos by lia.
  assert (0 < inject_Z n)%Q as HposQ.
  { change 0%Q with (inject_Z 0). by rewrite <- Zlt_Qlt. }
  rewrite round_float_pos by done.
  unfold round_pos, ulp_exp. cbv zeta. rewrite Qlog2_inject_Z by done.
  pose proof (Z.log2_nonneg n) as Hk0.
  assert (Z.log2 n < 53)%Z as Hk by (by apply Z.log2_lt_pow2).
  set (k := Z.log2 n) in *.
  replace (Z.max (k - 52) (-1074)) with (- (52 - k))%Z by lia.
  set (j := (52 - k)%Z). assert (0 <= j)%Z as Hj by lia.
  assert (2 ^ (- j) == / inject_Z (2 ^ j))%Q as Hp.
  { rewrite Qpower_opp. by rewrite Zpower_Qpower. }
  assert (0 < inject_Z (2 ^ j))%Q as Hpj.
  { rewrite Zpower_Qpower by done. apply Qpow2_pos. }
  rewrite (round_half_even_comp _ (inject_Z (n * 2 ^ j))).
  - rewrite round_half_even_Z, Hp, inject_Z_mult. field. lra.
  - rewrite Hp, inject_Z_mult. field. lra.
Qed.

(** ** [float(s)] on a run of digits *)







Lemma Qpow2_inject_Z (k : Z) : 0 <= k -> (2 ^ k == inject_Z (2 ^ k))%Q.
Proof. intros Hk. by rewrite Zpower_Qpower. Qed.



(** ** Trim marks: [normalize] *)

Section Normalize.

Variable f : string -> option Z.



Lemma normalize_none ts :
  Py.strip ts = "" \/
  (Py.contains ":"%char (Py.strip ts) = false /\ f (Py.strip ts) = None) ->
  normalize f ts = None.
Proof.
  unfold normalize. intros [->|[Hc Hf]]; [done|].
  rewrite Hc, Hf. by destruct (Py.strip ts).
Qed.



(** What [normalize] returns is never the empty string, so the test
    [if ss:] only separates [None] from a mark. *)
Lemma normalize_truthy ts r : normalize f ts = Some r -> Py.truthy r = true.
Proof.
  unfold normalize.
  destruct (Py.truthy (Py.strip ts)) eqn:Ht; simpl; [|done].
  destruct (Py.contains ":"%char (Py.strip ts)).
  - by intros [= <-].
  - destruct (f (Py.strip ts)); [|done]. intros [= <-].
    pose proof (hms_contains_colon z) as H. by destruct (hms z).
Qed.

End Normalize.

(** ** The worker monad *)

Ltac munfold :=
  unfold ui_log, ui_schedule in *;
  unfold bind, ret, raise, try_except, emit, add_files in *.

Lemma world_eta w : {| files := files w; events := events w |} = w.
Proof. by destruct w. Qed.

Lemma subprocess_run_eq E argv check out w :
  last argv = Some out ->
  subprocess_run E argv check w =
    (match run_error (subprocess E argv) argv check with
     | Some e => inl e
     | None => inr (match subprocess E argv with
                    | Exited rc _ => rc
                    | NotStarted _ => 0
                    end)
     end,
     {| files := after_run (subprocess E argv) out (files w);
        events := events w ++ [Spawn argv] |}).
Proof.
  intros Hlast. unfold subprocess_run, after_run, run_error. rewrite Hlast. simpl.
  rewrite (right_id_L ∅ (∪)).
  destruct (subprocess E argv) as [rc part|e]; [|done].
  by destruct (check && negb (bool_decide (rc = 0))).
Qed.

(** ** Stages of [process_task] *)

Section Stages.

Import DownloadWorker.

Variable E : Env.

Lemma two_schedules a b w :
  (ui_schedule a ;; ui_schedule b) w =
    (inr tt, {| files := files w; events := events w ++ [Schedule a; Schedule b] |}).
Proof. munfold. simpl. by rewrite <- app_assoc. Qed.

Lemma progress_cases d :
  (exists a b, progress d = (ui_schedule a ;; ui_schedule b) /\
               progress_events d = [Schedule a; Schedule b] /\
               later_stage_event (Schedule a) = false /\
               later_stage_event (Schedule b) = false) \/
  (progress d = ret tt /\ progress_events d = []).
Proof.
  unfold progress_events, progress.
  destruct (decide (pd_status d = Some "downloading")).
  { left. eexists _, _. split; [reflexivity|]. by rewrite two_schedules. }
  destruct (decide (pd_status d = Some "finished")).
  { left. eexists _, _. split; [reflexivity|]. by rewrite two_schedules. }
  by right.
Qed.

Lemma progress_eq d w :
  progress d w =
    (inr tt, {| files := files w; events := events w ++ progress_events d |}).
Proof.
  destruct (progress_cases d) as [(a & b & -> & -> & _)|[-> ->]].
  - apply two_schedules.
  - unfold ret. by rewrite app_nil_r, world_eta.
Qed.

Lemma for_each_progress ds w :
  for_each progress ds w =
    (inr tt, {| files := files w; events := events w ++ hooks_events ds |}).
Proof.
  revert w. induction ds as [|d ds IH]; intros w; simpl.
  - unfold ret, hooks_events. simpl. by rewrite app_nil_r, world_eta.
  - unfold bind. rewrite progress_eq, IH. simpl.
    unfold hooks_events. simpl. by rewrite <- app_assoc.
Qed.

Lemma progress_events_fetch_only d :
  Forall (fun ev => later_stage_event ev = false) (progress_events d).
Proof.
  destruct (progress_cases d) as [(a & b & _ & -> & Ha & Hb)|[_ ->]];
    repeat constructor; done.
Qed.

Lemma hooks_events_fetch_only ds :
  Forall (fun ev => later_stage_event ev = false) (hooks_events ds).
Proof.
  unfold hooks_events. induction ds as [|d ds IH]; simpl; [constructor|].
  apply Forall_app. split; [apply progress_events_fetch_only|done].
Qed.

Lemma hooks_events_scheduled ds :
  Forall (fun ev => exists call, ev = Schedule call) (hooks_events ds).
Proof.
  unfold hooks_events. induction ds as [|d ds IH]; simpl; [constructor|].
  apply Forall_app. split; [|done].
  destruct (progress_cases d) as [(a & b & _ & -> & _)|[_ ->]];
    repeat constructor; eauto.
Qed.

Lemma download_ok url opts w out_file :
  outcome (ydl_extract_info E url (ydl_opts opts)) = inr out_file ->
  download E url opts w =
    (inr (Some out_file),
     {| files := files w ∪ list_to_set (on_disk (ydl_extract_info E url (ydl_opts opts)));
        events := events w ++ Extract url (ydl_opts opts)
                    :: hooks_events (hook_calls (ydl_extract_info E url (ydl_opts opts))) |}).
Proof.
  intros Hout. unfold download, ydl_fetch, try_except, bind at 1 2 3 4.
  unfold emit at 1. rewrite for_each_progress. simpl.
  rewrite Hout. munfold. simpl. by rewrite <- app_assoc.
Qed.

Lemma download_failed url opts w e :
  outcome (ydl_extract_info E url (ydl_opts opts)) = inl e ->
  download E url opts w =
    (inr None,
     {| files := files w ∪ list_to_set (on_disk (ydl_extract_info E url (ydl_opts opts)));
        events := events w ++ Extract url (ydl_opts opts)
                    :: hooks_events (hook_calls (ydl_extract_info E url (ydl_opts opts)))
                    ++ [Log (LineExc "Download failed: " e);
                        Schedule (ShowError "Download failed" e)] |}).
Proof.
  intros Hout. unfold download, ydl_fetch, try_except, bind at 1 2 3 4.
  unfold emit at 1. rewrite for_each_progress. simpl.
  rewrite Hout. munfold. simpl. by rewrite <- !app_assoc.
Qed.

Lemma os_remove_present path w :
  path ∈ files w ->
  os_remove path w =
    (inr tt, {| files := files w ∖ {[ path ]}; events := events w ++ [Remove path] |}).
Proof. intros H. unfold os_remove. by case_decide. Qed.

Lemma os_remove_absent path w :
  path ∉ files w ->
  os_remove path w =
    (inl (FileNotFoundError path),
     {| files := files w; events := events w ++ [Remove path] |}).
Proof. intros H. unfold os_remove. by case_decide. Qed.

Lemma convert_skipped opts out_file w :
  audio_only opts && convert_mp3 opts = false ->
  convert E opts out_file w = (inr out_file, w).
Proof. intros H. unfold convert. by rewrite H. Qed.

(** The tool reports success and the input file is there to be removed. *)
Lemma convert_done opts out_file w part :
  audio_only opts && convert_mp3 opts = true ->
  subprocess E (convert_cmd out_file) = Exited 0 part ->
  out_file ∈ files w ∪ {[ mp3_path out_file ]} ->
  convert E opts out_file w =
    (inr (mp3_path out_file),
     {| files := (files w ∪ {[ mp3_path out_file ]}) ∖ {[ out_file ]};
        events := events w ++ [Spawn (convert_cmd out_file); Remove out_file] |}).
Proof.
  intros Hreq Hrun Hin. unfold convert. rewrite Hreq.
  unfold try_except, bind at 1.
  rewrite (subprocess_run_eq E _ true (mp3_path out_file)) by done.
  rewrite Hrun. simpl. unfold bind. rewrite os_remove_present by done.
  unfold ret, after_run. simpl. by rewrite <- app_assoc.
Qed.

(** The tool cannot be started or exits with a non-zero status. *)
Lemma convert_tool_failed opts out_file w e :
  audio_only opts && convert_mp3 opts = true ->
  run_error (subprocess E (convert_cmd out_file)) (convert_cmd out_file) true = Some e ->
  convert E opts out_file w =
    (inr out_file,
     {| files := after_run (subprocess E (convert_cmd out_file))
                           (mp3_path out_file) (files w);
        events := events w ++ [Spawn (convert_cmd out_file);
                               Log (LineExc "MP3 conversion failed: " e)] |}).
Proof.
  intros Hreq Herr. unfold convert. rewrite Hreq.
  unfold try_except, bind at 1.
  rewrite (subprocess_run_eq E _ true (mp3_path out_file)) by done.
  rewrite Herr. munfold. simpl. by rewrite <- app_assoc.
Qed.

(** The tool reports success but the input file cannot be removed. *)
Lemma convert_remove_failed opts out_file w part :
  audio_only opts && convert_mp3 opts = true ->
  subprocess E (convert_cmd out_file) = Exited 0 part ->
  out_file ∉ files w ∪ {[ mp3_path out_file ]} ->
  convert E opts out_file w =
    (inr out_file,
     {| files := files w ∪ {[ mp3_path out_file ]};
        events := events w ++ [Spawn (convert_cmd out_file); Remove out_file;
                               Log (LineExc "MP3 conversion failed: "
                                      (FileNotFoundError out_file))] |}).
Proof.
  intros Hreq Hrun Hin. unfold convert. rewrite Hreq.
  unfold try_except, bind at 1.
  rewrite (subprocess_run_eq E _ true (mp3_path out_file)) by done.
  rewrite Hrun. simpl. unfold bind. rewrite os_remove_absent by done.
  munfold. unfold after_run. simpl. by rewrite <- !app_assoc.
Qed.

End Stages.

Section Trim.

Import DownloadWorker.

Variable E : Env.

Lemma last_cmd_copy opts f : last (cmd_copy E opts f) = Some (trimmed f).
Proof.
  unfold cmd_copy.
  change ["-c"; "copy"; trimmed f] with (["-c"; "copy"] ++ [trimmed f])%list.
  by rewrite app_assoc, last_snoc.
Qed.

Lemma last_cmd_re opts f : last (cmd_re E opts f) = Some (trimmed f).
Proof.
  unfold cmd_re.
  change ["-c:v"; "libx264"; "-c:a"; "aac"; trimmed f]
    with (["-c:v"; "libx264"; "-c:a"; "aac"] ++ [trimmed f])%list.
  by rewrite app_assoc, last_snoc.
Qed.

Lemma trimmed_neq f : trimmed f <> f.
Proof.
  intros Heq. apply (f_equal String.length) in Heq.
  pose proof (f_equal String.length (splitext_app f)) as Hlen.
  unfold trimmed in Heq.
  rewrite !string_app_length in Heq, Hlen. simpl in Heq.
  change ("" +:+ (OsPath.splitext f).2) with (OsPath.splitext f).2 in Heq. lia.
Qed.

Lemma trim_skipped opts f w :
  Py.truthy (start opts) || Py.truthy (end_ opts) = false ->
  trim E opts f w = (inr f, w).
Proof. intros H. unfold trim. by rewrite H. Qed.

Lemma trim_tool_eq opts f w :
  trim_tool E opts f w =
    (match trim_tool_error E opts f with Some e => inl e | None => inr tt end,
     {| files := trim_tool_files E opts f (files w);
        events := events w ++ map Spawn (trim_tool_spawns E opts f) |}).
Proof.
  unfold trim_tool, trim_tool_error, trim_tool_files, trim_tool_spawns, bind at 1.
  rewrite (subprocess_run_eq E _ false (trimmed f)) by apply last_cmd_copy.
  destruct (subprocess E (cmd_copy E opts f)) as [rc part|e] eqn:Hcopy; simpl;
    [|done].
  destruct (bool_decide (rc = 0)) eqn:Hrc; simpl; [done|].
  unfold bind.
  rewrite (subprocess_run_eq E _ true (trimmed f)) by apply last_cmd_re.
  simpl. rewrite <- app_assoc. simpl.
  destruct (run_error _ _ _); done.
Qed.

Lemma trim_tool_error_ok opts f :
  trim_tool_error E opts f = None <-> trim_tool_ok E opts f = true.
Proof.
  unfold trim_tool_error, trim_tool_ok, succeeded, exited_nonzero, run_error.
  destruct (subprocess E (cmd_copy E opts f)) as [rc part|e]; simpl; [|done].
  destruct (bool_decide (rc = 0)); simpl; [done|].
  destruct (subprocess E (cmd_re E opts f)) as [rc2 part2|e2]; simpl; [|done].
  by destruct (bool_decide (rc2 = 0)).
Qed.

Lemma after_run_mono p out (fs : gset string) : fs ⊆ after_run p out fs.
Proof. unfold after_run. destruct (leaves p); [apply union_subseteq_l|done]. Qed.

Lemma trim_tool_files_mono opts f fs : fs ⊆ trim_tool_files E opts f fs.
Proof.
  unfold trim_tool_files. destruct (exited_nonzero _); [|apply after_run_mono].
  etrans; apply after_run_mono.
Qed.

Lemma trim_tool_files_ok opts f fs :
  trim_tool_ok E opts f = true ->
  trim_tool_files E opts f fs = fs ∪ {[ trimmed f ]}.
Proof.
  unfold trim_tool_ok, trim_tool_files, after_run, succeeded, exited_nonzero, leaves.
  destruct (subprocess E (cmd_copy E opts f)) as [rc part|e]; simpl; [|done].
  destruct (bool_decide (rc = 0)); simpl; [done|].
  destruct (subprocess E (cmd_re E opts f)) as [rc2 part2|e2]; simpl; [|done].
  destruct (bool_decide (rc2 = 0)); simpl; [|done].
  intros _. destruct part; simpl; [|done].
  by rewrite <- (assoc_L (∪)), (idemp_L (∪)).
Qed.

Lemma trim_unfold opts f w :
  Py.truthy (start opts) || Py.truthy (end_ opts) = true ->
  trim E opts f w =
    try_except (trim_tool E opts f ;; os_remove f ;; ret (trimmed f))%py
               (fun e => ui_log (LineExc "Trim failed: " e) ;; ret f)%py w.
Proof.
  intros H. unfold trim, trim_tool. rewrite H.
  unfold try_except, bind.
  destruct (subprocess_run E (cmd_copy E opts f) false w) as [[e|rc] w1]; [done|].
  destruct (negb (bool_decide (rc = 0))); [|done].
  by destruct (subprocess_run E (cmd_re E opts f) true w1) as [[e|rc2] w2].
Qed.

(** The three ways through a requested Trim stage. *)
Lemma trim_done opts f w :
  Py.truthy (start opts) || Py.truthy (end_ opts) = true ->
  trim_tool_ok E opts f = true ->
  f ∈ files w ->
  trim E opts f w =
    (inr (trimmed f),
     {| files := (files w ∪ {[ trimmed f ]}) ∖ {[ f ]};
        events := events w ++ map Spawn (trim_tool_spawns E opts f) ++ [Remove f] |}).
Proof.
  intros Hreq Hok Hin. rewrite trim_unfold by done.
  unfold try_except, bind at 1. rewrite trim_tool_eq.
  apply trim_tool_error_ok in Hok as Herr. rewrite Herr.
  unfold bind. rewrite os_remove_present.
  - unfold ret. simpl. by rewrite trim_tool_files_ok, <- app_assoc.
  - simpl. by apply trim_tool_files_mono.
Qed.

Lemma trim_tool_failed opts f w e :
  Py.truthy (start opts) || Py.truthy (end_ opts) = true ->
  trim_tool_error E opts f = Some e ->
  trim E opts f w =
    (inr f,
     {| files := trim_tool_files E opts f (files w);
        events := events w ++ map Spawn (trim_tool_spawns E opts f)
                    ++ [Log (LineExc "Trim failed: " e)] |}).
Proof.
  intros Hreq Herr. rewrite trim_unfold by done.
  unfold try_except, bind at 1. rewrite trim_tool_eq, Herr.
  munfold. simpl. by rewrite <- app_assoc.
Qed.

Lemma trim_remove_failed opts f w :
  Py.truthy (start opts) || Py.truthy (end_ opts) = true ->
  trim_tool_ok E opts f = true ->
  f ∉ files w ->
  trim E opts f w =
    (inr f,
     {| files := files w ∪ {[ trimmed f ]};
        events := events w ++ map Spawn (trim_tool_spawns E opts f)
                    ++ [Remove f; Log (LineExc "Trim failed: " (FileNotFoundError f))] |}).
Proof.
  intros Hreq Hok Hin. rewrite trim_unfold by done.
  unfold try_except, bind at 1. rewrite trim_tool_eq.
  apply trim_tool_error_ok in Hok as Herr. rewrite Herr.
  unfold bind. rewrite os_remove_absent.
  - munfold. simpl. by rewrite trim_tool_files_ok, <- !app_assoc.
  - simpl. rewrite trim_tool_files_ok by done.
    pose proof (trimmed_neq f) as Hneq.
    rewrite elem_of_union, elem_of_singleton. intros [?|?]; [done|congruence].
Qed.

End Trim.

Section Pipeline.

Import DownloadWorker.

Variable E : Env.

Lemma subtitles_eq url opts w :
  subtitles E url opts w =
    (inr tt, {| files := files w;
                events := events w ++ subtitles_events E url opts |}).
Proof.
  unfold subtitles, subtitles_events, ydl_subs.
  destruct (subs opts).
  - munfold. simpl. destruct (ydl_download E url (sub_opts opts)); simpl;
      by rewrite <- ?app_assoc.
  - unfold ret. by rewrite app_nil_r, world_eta.
Qed.

Lemma finalize_eq url out_file w :
  finalize url out_file w =
    (inr tt, {| files := files w;
                events := events w ++ finalize_events url out_file |}).
Proof. unfold finalize, finalize_events. munfold. simpl. by rewrite <- !app_assoc. Qed.

(** A transform stage never lets an exception out. *)
Lemma convert_total opts f w :
  exists f' w', convert E opts f w = (inr f', w').
Proof.
  unfold convert. destruct (audio_only opts && convert_mp3 opts); [|by eexists _, _].
  unfold try_except.
  destruct ((subprocess_run E (convert_cmd f) true ;; os_remove f ;;
             ret (mp3_path f))%py w) as [[e|f'] w'];
    munfold; simpl; by eexists _, _.
Qed.

Lemma trim_total opts f w :
  exists f' w', trim E opts f w = (inr f', w').
Proof.
  destruct (Py.truthy (start opts) || Py.truthy (end_ opts)) eqn:Hreq.
  - rewrite trim_unfold by done. unfold try_except.
    destruct ((trim_tool E opts f ;; os_remove f ;; ret (trimmed f))%py w)
      as [[e|f'] w']; munfold; simpl; by eexists _, _.
  - rewrite trim_skipped by done. by eexists _, _.
Qed.

Lemma process_task_fetched url opts w f f1 w1 f2 w2 :
  outcome (ydl_extract_info E url (ydl_opts opts)) = inr f ->
  convert E opts f (after_download E url opts w) = (inr f1, w1) ->
  trim E opts f1 w1 = (inr f2, w2) ->
  process_task E (url, opts) w =
    (inr tt, {| files := files w2;
                events := events w2 ++ subtitles_events E url opts
                            ++ finalize_events url f2 |}).
Proof.
  intros Hout Hconv Htrim. unfold process_task.
  unfold bind at 1. unfold ui_log at 1, emit.
  unfold bind at 1. unfold ui_schedule at 1, emit.
  unfold bind at 1. rewrite (download_ok E url opts _ f Hout).
  cbn [files events]. rewrite <- !app_assoc.
  unfold bind at 1.
  match goal with |- context [convert E opts f ?w0] =>
    change (convert E opts f w0)
      with (convert E opts f (after_download E url opts w))
  end.
  rewrite Hconv. unfold bind at 1. rewrite Htrim.
  unfold bind. rewrite subtitles_eq, finalize_eq. simpl.
  by rewrite <- app_assoc.
Qed.

Lemma process_task_fetch_failed url opts w e :
  outcome (ydl_extract_info E url (ydl_opts opts)) = inl e ->
  process_task E (url, opts) w =
    (inr tt,
     {| files := files (after_download E url opts w);
        events := events (after_download E url opts w)
                    ++ [Log (LineExc "Download failed: " e);
                        Schedule (ShowError "Download failed" e)] |}).
Proof.
  intros Hout. unfold process_task.
  unfold bind at 1. unfold ui_log at 1, emit.
  unfold bind at 1. unfold ui_schedule at 1, emit.
  unfold bind at 1. rewrite (download_failed E url opts _ e Hout).
  unfold ret, after_download. cbn [files events].
  by rewrite <- !app_assoc.
Qed.

(** [process_task] itself never raises. *)
Lemma process_task_total task w :
  exists w', process_task E task w = (inr tt, w').
Proof.
  destruct task as [url opts].
  destruct (outcome (ydl_extract_info E url (ydl_opts opts))) as [e|f] eqn:Hout.
  - rewrite (process_task_fetch_failed _ _ _ e) by done. by eexists.
  - destruct (convert_total opts f (after_download E url opts w)) as (f1 & w1 & H1).
    destruct (trim_total opts f1 w1) as (f2 & w2 & H2).
    rewrite (process_task_fetched _ _ _ f f1 w1 f2 w2) by done. by eexists.
Qed.

End Pipeline.

Section Growth.

Import DownloadWorker.

Variable E : Env.

(** The transform stages only add to the record of events. *)
Lemma convert_grows opts f w :
  exists t, events (snd (convert E opts f w)) = events w ++ t.
Proof.
  destruct (audio_only opts && convert_mp3 opts) eqn:Hreq.
  2:{ rewrite convert_skipped by done. exists []. by rewrite app_nil_r. }
  destruct (run_error (subprocess E (convert_cmd f)) (convert_cmd f) true)
    as [e|] eqn:Herr.
  { rewrite (convert_tool_failed E opts f w e) by done. by eexists. }
  assert (exists part, subprocess E (convert_cmd f) = Exited 0 part) as [part Hrun].
  { unfold run_error in Herr. destruct (subprocess E (convert_cmd f)) as [rc part|];
      [|done]. simpl in Herr. case_bool_decide; [|done]. subst. by eexists. }
  destruct (decide (f ∈ files w ∪ {[ mp3_path f ]})).
  - rewrite (convert_done E opts f w part) by done. by eexists.
  - rewrite (convert_remove_failed E opts f w part) by done. by eexists.
Qed.

Lemma trim_grows opts f w :
  exists t, events (snd (trim E opts f w)) = events w ++ t.
Proof.
  destruct (Py.truthy (start opts) || Py.truthy (end_ opts)) eqn:Hreq.
  2:{ rewrite trim_skipped by done. exists []. by rewrite app_nil_r. }
  destruct (trim_tool_error E opts f) as [e|] eqn:Herr.
  { rewrite (trim_tool_failed E opts f w e) by done. by eexists. }
  apply trim_tool_error_ok in Herr.
  destruct (decide (f ∈ files w)).
  - rewrite trim_done by done. by eexists.
  - rewrite trim_remove_failed by done. by eexists.
Qed.

End Growth.

(** ** Claims about the pipeline *)

Lemma deliver_app now evs1 evs2 a :
  App.deliver now (evs1 ++ evs2) a = App.deliver now evs2 (App.deliver now evs1 a).
Proof.
  revert a. induction evs1 as [|ev evs1 IH]; intros a; [done|].
  destruct ev; simpl; apply IH.
Qed.

Lemma deliver_fetch_only now evs a :
  Forall (fun ev => later_stage_event ev = false) evs ->
  App.history (App.deliver now evs a) = App.history a.
Proof.
  intros H. revert a. induction H as [|ev evs Hev _ IH]; intros a; [done|].
  destruct ev as [line|call| | | |]; simpl; try apply IH.
  destruct call; simpl in *; try done; by rewrite IH.
Qed.

Lemma deliver_finalize now url out a :
  App.history (App.deliver now (finalize_events url out) a) =
    {| h_time := now; h_url := url; h_file := out |} :: App.history a /\
  App.status_var (App.deliver now (finalize_events url out) a) = Status "Ready" /\
  App.progress_var (App.deliver now (finalize_events url out) a) = 0%Q.
Proof. done. Qed.


Lemma process_task_prefix E url opts w :
  exists rest,
    events (snd (DownloadWorker.process_task E (url, opts) w)) =
      events w ++ [Log (Line ("Start: " +:+ url));
                   Schedule (SetStatus (Status "Downloading..."));
                   Extract url (DownloadWorker.ydl_opts opts)] ++ rest.
Proof.
  destruct (outcome (ydl_extract_info E url (DownloadWorker.ydl_opts opts)))
    as [e|f] eqn:Hout.
  - rewrite (process_task_fetch_failed E url opts w e Hout). simpl.
    eexists. rewrite <- !app_assoc. reflexivity.
  - destruct (convert_total E opts f (after_download E url opts w)) as (f1 & w1 & H1).
    destruct (trim_total E opts f1 w1) as (f2 & w2 & H2).
    rewrite (process_task_fetched E url opts w f f1 w1 f2 w2 Hout H1 H2). simpl.
    destruct (convert_grows E opts f (after_download E url opts w)) as [t1 Ht1].
    destruct (trim_grows E opts f1 w1) as [t2 Ht2].
    rewrite H1 in Ht1. rewrite H2 in Ht2. simpl in Ht1, Ht2.
    rewrite Ht2, Ht1. simpl. eexists. rewrite <- !app_assoc. reflexivity.
Qed.

Lemma run_step E turns task rest n w w' :
  DownloadWorker.process_task E task w = (inr tt, w') ->
  DownloadWorker.run E (S turns)
    {| Queue.queue := task :: rest; Queue.unfinished_tasks := S n |} w =
  DownloadWorker.run E turns
    {| Queue.queue := rest; Queue.unfinished_tasks := n |} w'.
Proof.
  intros H. simpl. unfold DownloadWorker.iteration, DownloadWorker.finish. simpl.
  unfold try_except. by rewrite H.
Qed.

(** The counter of handed-out items never runs out under a worker: the loop
    is never ended by [task_done], nor by a job. *)
Lemma put_counted item q : Queue.counted q -> Queue.counted (Queue.put item q).
Proof.
  unfold Queue.counted, Queue.put. simpl. rewrite length_app. simpl. lia.
Qed.

Lemma iteration_alive E q w :
  Queue.counted q ->
  exists q' w',
    DownloadWorker.iteration E q w = (inr tt, q', w') /\ Queue.counted q'.
Proof.
  unfold Queue.counted, DownloadWorker.iteration, Queue.get. intros Hq.
  destruct q as [[|task rest] n]; simpl in *; [by eexists _, _|].
  destruct (process_task_total E task w) as [w' Hrun].
  unfold DownloadWorker.finish, try_except. rewrite Hrun.
  unfold Queue.task_done. simpl.
  destruct n as [|n]; [lia|]. eexists _, _. split; [done|]. simpl. lia.
Qed.

Lemma run_alive E turns q w :
  Queue.counted q ->
  exists q' w',
    DownloadWorker.run E turns q w = (inr tt, q', w') /\ Queue.counted q'.
Proof.
  revert q w. induction turns as [|turns IH]; intros q w Hq; simpl.
  - by eexists _, _.
  - destruct (iteration_alive E q w Hq) as (q1 & w1 & -> & Hq1). by apply IH.
Qed.

Lemma run_idle E turns n w :
  DownloadWorker.run E turns {| Queue.queue := []; Queue.unfinished_tasks := n |} w =
    (inr tt, {| Queue.queue := []; Queue.unfinished_tasks := n |}, w).
Proof. induction turns as [|turns IH]; [done|]. simpl. apply IH. Qed.

Lemma run_drains E tasks :
  forall n turns w,
    (length tasks <= n)%nat -> (length tasks <= turns)%nat ->
    DownloadWorker.run E turns
      {| Queue.queue := tasks; Queue.unfinished_tasks := n |} w =
      (inr tt,
       {| Queue.queue := []; Queue.unfinished_tasks := n - length tasks |},
       process_all E tasks w).
Proof.
  induction tasks as [|task rest IH]; intros n turns w Hn Hturns.
  - simpl. rewrite Nat.sub_0_r. apply run_idle.
  - simpl in Hn, Hturns.
    destruct n as [|n]; [lia|]. destruct turns as [|turns]; [lia|].
    destruct (process_task_total E task w) as [w' Hrun].
    rewrite (run_step E turns task rest n w w' Hrun).
    rewrite IH by lia. simpl. by rewrite Hrun.
Qed.

Lemma process_all_app E tasks1 tasks2 w :
  process_all E (tasks1 ++ tasks2) w = process_all E tasks2 (process_all E tasks1 w).
Proof.
  revert w. induction tasks1 as [|task rest IH]; intros w; [done|]. simpl. apply IH.
Qed.

Lemma deliver_dialogs now evs a :
  App.dialogs (App.deliver now evs a) = App.dialogs a.
Proof.
  revert a. induction evs as [|ev evs IH]; intros a; [done|].
  destruct ev as [line|call| | | |]; simpl; try apply IH.
  rewrite IH. by destruct call.
Qed.

(** C1: when the fetcher raises [e], [process_task] returns normally after
    exactly these events: the start line, the "Downloading..." status, the
    fetch with its progress callbacks, the logged failure and the scheduled
    error box.  None of them belongs to a later stage (no media-tool run,
    no removal, no subtitle download, no history entry, no "Ready"), so
    delivering the scheduled thunks leaves the history as it was; and a
    worker with enough turns goes on to process every job queued behind
    this one, in order, from the world this job left.  The error itself is
    logged but never shown: the scheduled thunk raises [NameError] when the
    Tk loop runs it, and delivering the whole trace shows no box. *)
Theorem failed_fetch_shows_no_error_box (E : Env) (url : string) (opts : Opts)
    (w : World) (e : exc) :
  outcome (ydl_extract_info E url (DownloadWorker.ydl_opts opts)) = inl e ->
  let r := ydl_extract_info E url (DownloadWorker.ydl_opts opts) in
  let trace :=
    [Log (Line ("Start: " +:+ url));
     Schedule (SetStatus (Status "Downloading..."));
     Extract url (DownloadWorker.ydl_opts opts)]
      ++ hooks_events (hook_calls r)
      ++ [Log (LineExc "Download failed: " e);
          Schedule (ShowError "Download failed" e)] in
  let w' := {| files := files w ∪ list_to_set (on_disk r);
               events := events w ++ trace |} in
  DownloadWorker.process_task E (url, opts) w = (inr tt, w') /\
  Forall (fun ev => later_stage_event ev = false) trace /\
  (forall now a,
     App.run_thunk now (ShowError "Download failed" e) a =
       inl (NameError App.unbound_e)) /\
  (forall now a,
     App.dialogs (App.deliver now trace a) = App.dialogs a /\
     App.history (App.deliver now trace a) = App.history a) /\
  (forall turns rest n,
     (length rest <= turns)%nat -> (length rest <= n)%nat ->
     DownloadWorker.run E (S turns)
       {| Queue.queue := (url, opts) :: rest; Queue.unfinished_tasks := S n |} w =
       (inr tt,
        {| Queue.queue := []; Queue.unfinished_tasks := n - length rest |},
        process_all E rest w')).
Proof.
  intros Hout r trace w'.
  assert (DownloadWorker.process_task E (url, opts) w = (inr tt, w')) as Hrun.
  { rewrite (process_task_fetch_failed E url opts w e Hout).
    unfold w', trace, r, after_download. simpl. by rewrite <- !app_assoc. }
  assert (Forall (fun ev => later_stage_event ev = false) trace) as Hfree.
  { unfold trace. repeat (apply Forall_cons; split; [done|]).
    apply Forall_app. split; [apply hooks_events_fetch_only|].
    by repeat constructor. }
  split; [done|]. split; [done|]. split; [done|]. split.
  - intros now a. split; [apply deliver_dialogs|by apply deliver_fetch_only].
  - intros turns rest n Hturns Hn.
    transitivity (DownloadWorker.run E turns
                    {| Queue.queue := rest; Queue.unfinished_tasks := n |} w').
    + by apply run_step.
    + by apply run_drains.
Qed.

Lemma failed_fetch_witness :
  DownloadWorker.process_task env_fetch_fails ("https://example.com/v", plain_opts) w0 =
    (inr tt,
     {| files := ∅ ∪ list_to_set [];
        events :=
          [] ++ [Log (Line "Start: https://example.com/v");
                 Schedule (SetStatus (Status "Downloading..."));
                 Extract "https://example.com/v" (DownloadWorker.ydl_opts plain_opts)]
             ++ hooks_events []
             ++ [Log (LineExc "Download failed: " fetch_error);
                 Schedule (ShowError "Download failed" fetch_error)] |}).
Proof.
  apply (failed_fetch_shows_no_error_box env_fetch_fails "https://example.com/v"
           plain_opts w0 fetch_error).
  reflexivity.
Defined.

(** What the window shows after that failed download: no box, no log line
    of the Tk loop's own, and the status still at "Downloading...". *)
Example failed_fetch_window :
  let trace := events (snd (DownloadWorker.process_task env_fetch_fails
                              ("https://example.com/v", plain_opts) w0)) in
  App.dialogs (App.deliver 0 trace sample_app) = [] /\
  App.status_var (App.deliver 0 trace sample_app) = Status "Downloading...".
Proof. split; reflexivity. Qed.


Section Transforms.

Import DownloadWorker.

Variable E : Env.

Lemma run_error_succeeded p argv :
  run_error p argv true = None <-> succeeded p = true.
Proof.
  unfold run_error, succeeded. destruct p as [rc part|e]; simpl; [|done].
  by destruct (bool_decide (rc = 0)).
Qed.

Lemma succeeded_exited p :
  succeeded p = true -> exists part, p = Exited 0 part.
Proof.
  unfold succeeded. destruct p as [rc part|e]; [|done].
  intros ->%bool_decide_eq_true. by eexists.
Qed.

(** The Convert stage by cases on what the tool did. *)
Lemma convert_cases opts f w :
  exists f' w',
    convert E opts f w = (inr f', w') /\
    ((audio_only opts && convert_mp3 opts = false /\ f' = f /\ w' = w) \/
     (audio_only opts && convert_mp3 opts = true /\
      succeeded (subprocess E (convert_cmd f)) = false /\
      f' = f /\ files w ⊆ files w' /\
      exists e, events w' = events w ++ [Spawn (convert_cmd f);
                                         Log (LineExc "MP3 conversion failed: " e)]) \/
     (audio_only opts && convert_mp3 opts = true /\
      succeeded (subprocess E (convert_cmd f)) = true /\
      (f ∉ files w ∪ {[ mp3_path f ]}) /\
      f' = f /\ files w' = files w ∪ {[ mp3_path f ]} /\
      events w' = events w ++ [Spawn (convert_cmd f); Remove f;
                               Log (LineExc "MP3 conversion failed: "
                                      (FileNotFoundError f))]) \/
     (audio_only opts && convert_mp3 opts = true /\
      succeeded (subprocess E (convert_cmd f)) = true /\
      f ∈ files w ∪ {[ mp3_path f ]} /\
      f' = mp3_path f /\
      files w' = (files w ∪ {[ mp3_path f ]}) ∖ {[ f ]} /\
      events w' = events w ++ [Spawn (convert_cmd f); Remove f])).
Proof.
  destruct (audio_only opts && convert_mp3 opts) eqn:Hreq.
  2:{ rewrite convert_skipped by done. eexists _, _. split; [done|]. by left. }
  destruct (run_error (subprocess E (convert_cmd f)) (convert_cmd f) true)
    as [e|] eqn:Herr.
  { rewrite (convert_tool_failed E opts f w e) by done.
    eexists _, _. split; [done|]. right. left. simpl.
    split; [done|]. split.
    { destruct (succeeded _) eqn:Hs; [|done].
      apply (run_error_succeeded _ (convert_cmd f)) in Hs. congruence. }
    split; [done|]. split; [apply after_run_mono|by eexists]. }
  apply run_error_succeeded in Herr as Hs.
  destruct (succeeded_exited _ Hs) as [part Hrun].
  destruct (decide (f ∈ files w ∪ {[ mp3_path f ]})).
  - rewrite (convert_done E opts f w part) by done.
    eexists _, _. split; [done|]. do 3 right. done.
  - rewrite (convert_remove_failed E opts f w part) by done.
    eexists _, _. split; [done|]. do 2 right. left. done.
Qed.

(** The Trim stage by cases on what the tool did. *)
Lemma trim_cases opts f w :
  exists f' w',
    trim E opts f w = (inr f', w') /\
    ((Py.truthy (start opts) || Py.truthy (end_ opts) = false /\ f' = f /\ w' = w) \/
     (Py.truthy (start opts) || Py.truthy (end_ opts) = true /\
      trim_tool_ok E opts f = false /\
      f' = f /\ files w ⊆ files w' /\
      exists e, trim_tool_error E opts f = Some e /\
                events w' = events w ++ map Spawn (trim_tool_spawns E opts f)
                              ++ [Log (LineExc "Trim failed: " e)]) \/
     (Py.truthy (start opts) || Py.truthy (end_ opts) = true /\
      trim_tool_ok E opts f = true /\ (f ∉ files w) /\
      f' = f /\ files w' = files w ∪ {[ trimmed f ]} /\
      events w' = events w ++ map Spawn (trim_tool_spawns E opts f)
                    ++ [Remove f; Log (LineExc "Trim failed: "
                                         (FileNotFoundError f))]) \/
     (Py.truthy (start opts) || Py.truthy (end_ opts) = true /\
      trim_tool_ok E opts f = true /\ f ∈ files w /\
      f' = trimmed f /\
      files w' = (files w ∪ {[ trimmed f ]}) ∖ {[ f ]} /\
      events w' = events w ++ map Spawn (trim_tool_spawns E opts f)
                    ++ [Remove f])).
Proof.
  destruct (Py.truthy (start opts) || Py.truthy (end_ opts)) eqn:Hreq.
  2:{ rewrite trim_skipped by done. eexists _, _. split; [done|]. by left. }
  destruct (trim_tool_error E opts f) as [e|] eqn:Herr.
  { rewrite (trim_tool_failed E opts f w e) by done.
    eexists _, _. split; [done|]. right. left. simpl.
    split; [done|]. split.
    { destruct (trim_tool_ok E opts f) eqn:Hs; [|done].
      apply trim_tool_error_ok in Hs. congruence. }
    split; [done|]. split; [apply trim_tool_files_mono|by eexists]. }
  apply trim_tool_error_ok in Herr as Hok.
  destruct (decide (f ∈ files w)).
  - rewrite trim_done by done.
    eexists _, _. split; [done|]. do 3 right. done.
  - rewrite trim_remove_failed by done.
    eexists _, _. split; [done|]. do 2 right. left. done.
Qed.

End Transforms.

(** C2: once the fetch has delivered [f], the job always completes:
    [process_task] returns normally and its last events are the history
    entry, the progress reset, the "Ready" status and the completion line,
    all for the path [f2] that the Trim stage hands on, which it got from
    the Convert stage as [f1].  When the conversion tool fails, [f1] is the
    fetched path and the failure is the last thing logged by the stage;
    when the trim tool fails, [f2] is [f1] and the failure is logged
    likewise.  Delivering the final thunks puts [(url, f2)] at the head of
    the history and sets the status to "Ready". *)
Theorem transform_failure_is_not_fatal (E : Env) (url : string) (opts : Opts)
    (w : World) (f : string) :
  outcome (ydl_extract_info E url (DownloadWorker.ydl_opts opts)) = inr f ->
  exists f1 w1 f2 w2,
    DownloadWorker.convert E opts f (after_download E url opts w) = (inr f1, w1) /\
    DownloadWorker.trim E opts f1 w1 = (inr f2, w2) /\
    DownloadWorker.process_task E (url, opts) w =
      (inr tt, {| files := files w2;
                  events := events w2 ++ subtitles_events E url opts
                              ++ finalize_events url f2 |}) /\
    (audio_only opts && convert_mp3 opts = true ->
     succeeded (subprocess E (DownloadWorker.convert_cmd f)) = false ->
     f1 = f /\
     exists e, last (events w1) = Some (Log (LineExc "MP3 conversion failed: " e))) /\
    (Py.truthy (start opts) || Py.truthy (end_ opts) = true ->
     trim_tool_ok E opts f1 = false ->
     f2 = f1 /\
     exists e, last (events w2) = Some (Log (LineExc "Trim failed: " e))) /\
    (forall now a,
       App.history (App.deliver now (finalize_events url f2) a) =
         {| h_time := now; h_url := url; h_file := f2 |} :: App.history a /\
       App.status_var (App.deliver now (finalize_events url f2) a) = Status "Ready").
Proof.
  intros Hout.
  destruct (convert_cases E opts f (after_download E url opts w))
    as (f1 & w1 & Hconv & Hc).
  destruct (trim_cases E opts f1 w1) as (f2 & w2 & Htrim & Ht).
  exists f1, w1, f2, w2. split; [done|]. split; [done|].
  split; [by apply (process_task_fetched E url opts w f f1 w1 f2 w2)|].
  split; [|split].
  - intros Hreq Hfail.
    destruct Hc as [(Hr & _)|[(_ & _ & -> & _ & e & Hev)|[(_ & Hs & _)|(_ & Hs & _)]]];
      try congruence.
    split; [done|]. exists e. rewrite Hev.
    change [Spawn (DownloadWorker.convert_cmd f);
            Log (LineExc "MP3 conversion failed: " e)]
      with ([Spawn (DownloadWorker.convert_cmd f)]
              ++ [Log (LineExc "MP3 conversion failed: " e)]).
    by rewrite app_assoc, last_snoc.
  - intros Hreq Hfail.
    destruct Ht as [(Hr & _)|[(_ & _ & -> & _ & e & _ & Hev)|[(_ & Hs & _)|(_ & Hs & _)]]];
      try congruence.
    split; [done|]. exists e. rewrite Hev. by rewrite !app_assoc, last_snoc.
  - intros now a. pose proof (deliver_finalize now url f2 a) as (? & ? & _). done.
Qed.

Lemma transform_failure_witness :
  exists w',
    DownloadWorker.process_task env_tool_fails
      ("https://example.com/v",
       {| quality := "audio"; save_folder := "/d"; start := "10"; end_ := "";
          audio_only := true; convert_mp3 := true; subs := false;
          subs_lang := "en"; noplaylist := true |}) w0 = (inr tt, w') /\
    last (events w') = Some (Log (Line "Completed: /d/v.webm")) /\
    In (Schedule (AddHistory "https://example.com/v" "/d/v.webm")) (events w').
Proof.
  destruct (transform_failure_is_not_fatal env_tool_fails "https://example.com/v"
              {| quality := "audio"; save_folder := "/d"; start := "10"; end_ := "";
                 audio_only := true; convert_mp3 := true; subs := false;
                 subs_lang := "en"; noplaylist := true |} w0 "/d/v.webm")
    as (f1 & w1 & f2 & w2 & Hconv & Htrim & Hrun & Hc & Ht & _);
    [reflexivity|].
  destruct Hc as [-> _]; [reflexivity|reflexivity|].
  destruct Ht as [-> _]; [reflexivity|reflexivity|].
  eexists. split; [exact Hrun|]. simpl. split.
  - by rewrite last_app.
  - apply in_or_app. right. by left.
Defined.

(** C3, as stated, fails: a conversion that exits with status 1 after it
    has started to write leaves its partial [.mp3] on disk next to the
    fetched file; the job completes with the fetched path, and both files
    are there at job end. *)
Lemma failed_conversion_leaves_partial_file :
  let w' := snd (DownloadWorker.process_task env_tool_fails
                   ("https://example.com/v", mp3_opts) w0) in
  "/d/v.webm" ∈ files w' /\
  "/d/v.mp3" ∈ files w' /\
  In (Schedule (AddHistory "https://example.com/v" "/d/v.webm")) (events w').
Proof.
  pose proof (convert_tool_failed env_tool_fails mp3_opts "/d/v.webm"
                (after_download env_tool_fails "https://example.com/v" mp3_opts w0)
                (CalledProcessError 1 (DownloadWorker.convert_cmd "/d/v.webm"))
                eq_refl eq_refl) as Hconv.
  rewrite (process_task_fetched env_tool_fails "https://example.com/v" mp3_opts w0
             "/d/v.webm" "/d/v.webm" _ "/d/v.webm" _ eq_refl Hconv
             (trim_skipped env_tool_fails mp3_opts "/d/v.webm" _ eq_refl)).
  cbn [snd files events].
  split; [|split].
  - apply after_run_mono. cbn [after_download files].
    apply elem_of_union_r, elem_of_list_to_set, list_elem_of_In. by left.
  - unfold after_run. change (leaves _) with true. cbv iota.
    by apply elem_of_union_r, elem_of_singleton_2.
  - apply in_or_app. right. by left.
Qed.

(** C3 (amended): a transform stage that starts with its input on disk ends
    with the produced path on disk.  Either the path is still the input and
    nothing was deleted, or the media tool exited with status 0, the path
    is the successor, and the input was removed after the tool's run, the
    successor taking its place.  Hence at job end the delivered path names
    an existing file.  (For the Convert stage the input must not already be
    named like its own successor.) *)
Theorem transform_keeps_produced_file (E : Env) (opts : Opts) (f : string) :
  (forall w,
     f ∈ files w ->
     (audio_only opts && convert_mp3 opts = true ->
      DownloadWorker.mp3_path f <> f) ->
     exists f' w',
       DownloadWorker.convert E opts f w = (inr f', w') /\
       f' ∈ files w' /\
       ((f' = f /\ files w ⊆ files w') \/
        (f' = DownloadWorker.mp3_path f /\
         succeeded (subprocess E (DownloadWorker.convert_cmd f)) = true /\
         files w' = (files w ∪ {[ f' ]}) ∖ {[ f ]} /\
         events w' = events w ++ [Spawn (DownloadWorker.convert_cmd f);
                                  Remove f]))) /\
  (forall w,
     f ∈ files w ->
     exists f' w',
       DownloadWorker.trim E opts f w = (inr f', w') /\
       f' ∈ files w' /\
       ((f' = f /\ files w ⊆ files w') \/
        (f' = DownloadWorker.trimmed f /\
         trim_tool_ok E opts f = true /\
         files w' = (files w ∪ {[ f' ]}) ∖ {[ f ]} /\
         events w' = events w ++ map Spawn (trim_tool_spawns E opts f)
                       ++ [Remove f]))) /\
  (forall url w,
     outcome (ydl_extract_info E url (DownloadWorker.ydl_opts opts)) = inr f ->
     f ∈ files (after_download E url opts w) ->
     (audio_only opts && convert_mp3 opts = true ->
      DownloadWorker.mp3_path f <> f) ->
     exists out w',
       DownloadWorker.process_task E (url, opts) w = (inr tt, w') /\
       out ∈ files w' /\
       exists pre, events w' = pre ++ finalize_events url out).
Proof.
  assert (forall w, f ∈ files w ->
            (audio_only opts && convert_mp3 opts = true ->
             DownloadWorker.mp3_path f <> f) ->
            exists f' w',
              DownloadWorker.convert E opts f w = (inr f', w') /\
              f' ∈ files w' /\
              ((f' = f /\ files w ⊆ files w') \/
               (f' = DownloadWorker.mp3_path f /\
                succeeded (subprocess E (DownloadWorker.convert_cmd f)) = true /\
                files w' = (files w ∪ {[ f' ]}) ∖ {[ f ]} /\
                events w' = events w ++ [Spawn (DownloadWorker.convert_cmd f);
                                         Remove f]))) as Hconvert.
  { intros w Hin Hne.
    destruct (convert_cases E opts f w) as (f' & w' & Hrun & Hc).
    exists f', w'. split; [done|].
    destruct Hc as [(_ & -> & ->)|[(_ & _ & -> & Hsub & _)|
                    [(_ & _ & Hout & _)|(Hreq & Hs & _ & -> & Hfs & Hev)]]].
    - split; [done|]. by left.
    - split; [by apply Hsub|]. by left.
    - exfalso. apply Hout, elem_of_union_l, Hin.
    - specialize (Hne Hreq). split; [|by right].
      rewrite Hfs. apply elem_of_difference. split.
      + apply elem_of_union_r. by apply elem_of_singleton.
      + rewrite elem_of_singleton. congruence. }
  assert (forall g w, g ∈ files w ->
            exists f' w',
              DownloadWorker.trim E opts g w = (inr f', w') /\
              f' ∈ files w' /\
              ((f' = g /\ files w ⊆ files w') \/
               (f' = DownloadWorker.trimmed g /\
                trim_tool_ok E opts g = true /\
                files w' = (files w ∪ {[ f' ]}) ∖ {[ g ]} /\
                events w' = events w ++ map Spawn (trim_tool_spawns E opts g)
                              ++ [Remove g]))) as Htrim.
  { intros g w Hin.
    destruct (trim_cases E opts g w) as (f' & w' & Hrun & Hc).
    exists f', w'. split; [done|].
    destruct Hc as [(_ & -> & ->)|[(_ & _ & -> & Hsub & _)|
                    [(_ & _ & Hout & _)|(Hreq & Hs & _ & -> & Hfs & Hev)]]].
    - split; [done|]. by left.
    - split; [by apply Hsub|]. by left.
    - done.
    - pose proof (trimmed_neq g) as Hneq. split; [|by right].
      rewrite Hfs. apply elem_of_difference. split.
      + apply elem_of_union_r. by apply elem_of_singleton.
      + rewrite elem_of_singleton. congruence. }
  split; [done|]. split; [apply Htrim|].
  intros url w Hout Hin Hne.
  destruct (Hconvert _ Hin Hne) as (f1 & w1 & Hc & Hin1 & _).
  destruct (Htrim f1 w1 Hin1) as (f2 & w2 & Ht & Hin2 & _).
  exists f2. eexists. split; [by apply (process_task_fetched E url opts w f f1 w1 f2 w2)|].
  split; [done|]. simpl. eexists. by rewrite app_assoc.
Qed.

Lemma transform_keeps_produced_file_witness :
  exists w',
    DownloadWorker.convert env_ok mp3_opts "/d/v.webm"
      {| files := {[ "/d/v.webm" ]}; events := [] |} = (inr "/d/v.mp3", w') /\
    files w' = ({[ "/d/v.webm" ]} ∪ {[ "/d/v.mp3" ]}) ∖ {[ "/d/v.webm" ]} /\
    events w' = [Spawn (DownloadWorker.convert_cmd "/d/v.webm"); Remove "/d/v.webm"].
Proof.
  destruct (transform_keeps_produced_file env_ok mp3_opts "/d/v.webm") as (Hc & _).
  destruct (Hc {| files := {[ "/d/v.webm" ]}; events := [] |})
    as (f' & w' & Hrun & _ & [[_ Hsub]|(-> & _ & Hfs & Hev)]).
  - cbn [files]. by apply elem_of_singleton_2.
  - intros _. discriminate.
  - exfalso.
    rewrite (convert_done env_ok mp3_opts "/d/v.webm" _ false) in Hrun;
      [|reflexivity|reflexivity|
       cbn [files]; by apply elem_of_union_l, elem_of_singleton_2].
    injection Hrun as _ <-. cbn [files] in Hsub.
    assert ("/d/v.webm" ∈ ({[ "/d/v.webm" ]} : gset string)) as Hin
      by (by apply elem_of_singleton_2).
    apply Hsub, elem_of_difference in Hin as [_ Hn].
    by apply Hn, elem_of_singleton_2.
  - exists w'. split; [exact Hrun|]. split; [exact Hfs|exact Hev].
Defined.




(** C8: the first thing [process_task] does for any job is to call
    [self.ui.log] itself, on the worker thread; the call is not handed to
    [self.ui.schedule]. *)
Theorem process_task_logs_on_worker_thread (E : Env) (url : string)
    (opts : Opts) (w : World) :
  exists rest,
    events (snd (DownloadWorker.process_task E (url, opts) w)) =
      events w ++ Log (Line ("Start: " +:+ url)) :: rest.
Proof.
  destruct (process_task_prefix E url opts w) as [rest Hrest].
  rewrite Hrest. by eexists.
Qed.

(** The whole record of a download that fails: both log lines are direct
    calls, the status and the error box are scheduled. *)
Example failed_download_trace :
  events (snd (DownloadWorker.process_task env_fetch_fails
                 ("https://example.com/v", plain_opts) w0)) =
    [Log (Line "Start: https://example.com/v");
     Schedule (SetStatus (Status "Downloading..."));
     Extract "https://example.com/v" (DownloadWorker.ydl_opts plain_opts);
     Log (LineExc "Download failed: " fetch_error);
     Schedule (ShowError "Download failed" fetch_error)].
Proof. reflexivity. Qed.

(** ** Claims about the queue and the estimator *)

(** C5, as stated, fails: [clear_queue] returns [None], not the number of
    jobs it removed; here two jobs are pending. *)
Lemma clear_queue_returns_no_count :
  length (Queue.queue (App.tasks_q busy_app)) = 2%nat /\
  fst (App.clear_queue busy_app) = None /\
  fst (App.clear_queue busy_app) <> Some 2%nat.
Proof. repeat split; done. Qed.

(** C5 (amended): [clear_queue] removes every pending job in one step and
    leaves the queue (and its list box) empty, so that no worker can draw a
    job from it; it returns nothing; the count of handed-out jobs and the
    history stay as they are, and a job a worker has already drawn runs to
    the same result and the same effects as it would have without the
    call. *)
Theorem clear_queue_empties_pending (a : App.t) :
  fst (App.clear_queue a) = None /\
  Queue.queue (App.tasks_q (snd (App.clear_queue a))) = [] /\
  Queue.get (App.tasks_q (snd (App.clear_queue a))) = None /\
  App.queue_listbox (snd (App.clear_queue a)) = [] /\
  Queue.unfinished_tasks (App.tasks_q (snd (App.clear_queue a))) =
    Queue.unfinished_tasks (App.tasks_q a) /\
  App.history (snd (App.clear_queue a)) = App.history a /\
  (forall E task w,
     let '(r, q', w') := DownloadWorker.finish E task (App.tasks_q a) w in
     DownloadWorker.finish E task (App.tasks_q (snd (App.clear_queue a))) w =
       (r, {| Queue.queue := [];
              Queue.unfinished_tasks := Queue.unfinished_tasks q' |}, w')).
Proof.
  repeat split; try done.
  intros E task w. unfold DownloadWorker.finish. simpl.
  destruct (try_except _ _ w) as [r w1].
  unfold Queue.task_done. simpl.
  destruct (Queue.unfinished_tasks (App.tasks_q a)) eqn:Hu; simpl; by rewrite ?Hu.
Qed.

(** C6: with video selected, a quality other than ["best"] and no format
    that declares a size, [sel] stays [None] and [sel.get] raises: the
    estimator shows the error box with the attribute error, and the label
    is not set to the unknown markers. *)
Theorem estimate_without_sizes_fails (E : Env) (a : App.t) (info : Info) :
  Py.strip (App.url_var a) <> "" ->
  ydl_info E (Py.strip (App.url_var a)) = inr info ->
  App.audio_only_var a = false ->
  App.quality_var a <> "best" ->
  (forall f, In f (formats info) -> num_truthy (filesize f) = false) ->
  App.estimate E a =
    App.messagebox
      (ShowErrorBox "Estimate failed"
         (AttributeError "'NoneType' object has no attribute 'get'")) a /\
  App.estimate_label_var (App.estimate E a) = App.estimate_label_var a.
Proof.
  intros Hurl Hinfo Haudio Hq Hsizes.
  assert (select (formats info) (App.quality_var a) = None) as Hsel.
  { unfold select. case_decide; [done|].
    assert (forall P, List.filter (fun f => P f && num_truthy (filesize f))
                        (formats info) = []) as Hnil.
    { intros P. induction (formats info) as [|f l IH]; [done|]. simpl.
      rewrite (Hsizes f) by (by left). rewrite andb_false_r.
      apply IH. intros f' Hf'. apply Hsizes. by right. }
    destruct (Py.endswith "p" (App.quality_var a) && _).
    - by rewrite Hnil.
    - specialize (Hnil (fun _ => true)). simpl in Hnil. by rewrite Hnil. }
  assert (App.estimate E a =
          App.messagebox
            (ShowErrorBox "Estimate failed"
               (AttributeError "'NoneType' object has no attribute 'get'")) a)
    as Hest.
  { unfold App.estimate, App.estimate_try.
    destruct (Py.strip (App.url_var a)) eqn:Hs; [done|]. simpl.
    rewrite Hinfo. unfold est_bytes. by rewrite Haudio, Hsel. }
  split; [done|]. by rewrite Hest.
Qed.

Lemma estimate_without_sizes_witness :
  App.dialogs (App.estimate env_ok sample_app) =
    [ShowErrorBox "Estimate failed"
       (AttributeError "'NoneType' object has no attribute 'get'")] /\
  App.estimate_label_var (App.estimate env_ok sample_app) = None.
Proof.
  destruct (estimate_without_sizes_fails env_ok sample_app sample_info)
    as [Hest Hlabel].
  - discriminate.
  - reflexivity.
  - reflexivity.
  - discriminate.
  - intros f [<-|[]]. reflexivity.
  - rewrite Hlabel, Hest. split; reflexivity.
Defined.

(** The parts of the estimator that do degrade to the unknown marker. *)
Lemma estimator_unknown_markers :
  human_size None = Unknown /\
  human_size (Some 0%Q) = Unknown /\
  (forall est, eta_str None est = EtaUnknown) /\
  (forall est, eta_str (Some 0%Q) est = EtaUnknown) /\
  (forall spd, eta_str spd None = EtaUnknown) /\
  (forall spd, eta_str spd (Some 0%Q) = EtaUnknown) /\
  (forall E, (forall u, requests_get E u = ProbeRaises) ->
             quick_speed_test E = None).
Proof.
  repeat split; try done.
  - intros spd. unfold eta_str. by destruct (q_truthy spd).
  - intros spd. unfold eta_str. by destruct (q_truthy spd).
  - intros E H. unfold quick_speed_test. simpl. by rewrite !H.
Qed.

(** ** Claims about trim marks and format selection *)




(** The conversion goes through a float: from 2^53 on a run of digits is
    rounded, and one of 310 digits is too large and dropped; a fraction is
    cut off, an exponent and a sign are read. *)
Example normalize_through_float :
  normalize int_float "9007199254740993" = Some "2501999792983:36:32" /\
  normalize int_float (String "1" (string_of_list_ascii (repeat "0"%char 309))) = None /\
  normalize int_float "90.5" = Some "00:01:30" /\
  normalize int_float "1e3" = Some "00:16:40" /\
  normalize int_float "+5" = Some "00:00:05" /\
  normalize int_float "1_0" = Some "00:00:10" /\
  normalize int_float "-90" = Some "-1:58:30" /\
  normalize int_float "5_" = None /\
  normalize int_float "inf" = None.
Proof. by vm_compute. Qed.

(** C9: a mark that is empty, blank, or colon-free and not convertible to a
    number normalises to [None]; its [-ss] (resp. [-to]) flag is then
    missing from the trim command, which keeps only the other flag; and the
    Trim stage returns normally whatever the marks are. *)
Theorem unusable_mark_is_dropped (E : Env) (opts : Opts) (out_file mark : string) :
  Py.strip mark = "" \/
  (Py.contains ":"%char (Py.strip mark) = false /\
   int_of_float E (Py.strip mark) = None) ->
  normalize (int_of_float E) mark = None /\
  (start opts = mark ->
   DownloadWorker.trim_cmd E opts out_file =
     [FFMPEG_CMD; "-y"; "-i"; out_file]
       ++ DownloadWorker.flag "-to" (normalize (int_of_float E) (end_ opts))) /\
  (end_ opts = mark ->
   DownloadWorker.trim_cmd E opts out_file =
     [FFMPEG_CMD; "-y"; "-i"; out_file]
       ++ DownloadWorker.flag "-ss" (normalize (int_of_float E) (start opts))) /\
  (forall w, exists f' w', DownloadWorker.trim E opts out_file w = (inr f', w')).
Proof.
  intros Hmark. pose proof (normalize_none (int_of_float E) mark Hmark) as Hnone.
  split; [done|]. unfold DownloadWorker.trim_cmd.
  split; [|split].
  - intros ->. by rewrite Hnone.
  - intros ->. rewrite Hnone. simpl. by rewrite app_nil_r.
  - intros w. apply trim_total.
Qed.

Lemma unusable_mark_witness :
  normalize int_float "abc" = None /\
  DownloadWorker.trim_cmd env_ok
    {| quality := "best"; save_folder := "/d"; start := "abc"; end_ := "90";
       audio_only := false; convert_mp3 := false; subs := false;
       subs_lang := "en"; noplaylist := true |} "/d/v.webm" =
    ["ffmpeg"; "-y"; "-i"; "/d/v.webm"; "-to"; "00:01:30"].
Proof.
  destruct (unusable_mark_is_dropped env_ok
              {| quality := "best"; save_folder := "/d"; start := "abc";
                 end_ := "90"; audio_only := false; convert_mp3 := false;
                 subs := false; subs_lang := "en"; noplaylist := true |}
              "/d/v.webm" "abc") as (Hn & Hss & _).
  - right. split; reflexivity.
  - split; [exact Hn|]. rewrite Hss by reflexivity. reflexivity.
Defined.

(** C10: with [audio_only] off, a quality string that is neither ["best"]
    nor digits followed by ["p"] selects ['bestvideo+bestaudio/best'], and
    that is the selector the fetcher is called with; ["audio"] is such a
    string; [add_to_queue] takes the quality string as it is, and
    [on_audio_toggle] writes ["audio"] when the box is ticked and leaves the
    string alone when it is unticked. *)
Theorem unknown_quality_falls_back (opts : Opts) :
  audio_only opts = false ->
  quality opts <> "best" ->
  (forall d, quality opts = d +:+ "p" -> Py.isdigit d = false) ->
  DownloadWorker.select_format opts = "bestvideo+bestaudio/best" /\
  format (DownloadWorker.ydl_opts opts) = "bestvideo+bestaudio/best" /\
  (forall E url w,
     exists rest,
       events (snd (DownloadWorker.process_task E (url, opts) w)) =
         events w ++ [Log (Line ("Start: " +:+ url));
                      Schedule (SetStatus (Status "Downloading..."));
                      Extract url (DownloadWorker.ydl_opts opts)] ++ rest) /\
  (forall a,
     Py.strip (App.url_var a) <> "" ->
     exists o,
       Queue.queue (App.tasks_q (App.add_to_queue a)) =
         Queue.queue (App.tasks_q a) ++ [(Py.strip (App.url_var a), o)] /\
       quality o = App.quality_var a /\ audio_only o = App.audio_only_var a) /\
  (forall a, App.quality_var (App.on_audio_toggle a) =
             if App.audio_only_var a then "audio" else App.quality_var a).
Proof.
  intros Haudio Hbest Hp.
  assert (DownloadWorker.select_format opts = "bestvideo+bestaudio/best") as Hsel.
  { unfold DownloadWorker.select_format. rewrite Haudio.
    case_decide; [done|].
    destruct (Py.endswith "p" (quality opts)) eqn:Hend; [|done].
    rewrite (Hp (Py.drop_last (quality opts))); [done|].
    by apply endswith_drop_last. }
  split; [done|]. split; [done|]. split; [|split].
  - intros E url w. apply process_task_prefix.
  - intros a Hurl. unfold App.add_to_queue.
    destruct (Py.strip (App.url_var a)) eqn:Hs; [done|]. simpl.
    eexists. split; [reflexivity|done].
  - intros a. unfold App.on_audio_toggle. by destruct (App.audio_only_var a).
Qed.

Lemma unknown_quality_witness :
  DownloadWorker.select_format
    {| quality := "audio"; save_folder := "/d"; start := ""; end_ := "";
       audio_only := false; convert_mp3 := false; subs := false;
       subs_lang := "en"; noplaylist := true |} = "bestvideo+bestaudio/best".
Proof.
  refine (proj1 (unknown_quality_falls_back _ _ _ _)); [reflexivity|discriminate|].
  intros d Hd. simpl in Hd.
  assert (Py.drop_last "audio" = d) as <-.
  { rewrite Hd. apply drop_last_app. }
  reflexivity.
Defined.

(** * Further properties of the program *)

(** ** [safe_filename] *)

Lemma remove_char_gone c s : Py.contains c (remove_char c s) = false.
Proof.
  induction s as [|a s IH]; simpl; [done|].
  destruct (decide (a = c)) as [->|Hne]; [done|]. simpl. by case_decide.
Qed.

Lemma remove_char_keeps_free c c' s :
  Py.contains c s = false -> Py.contains c (remove_char c' s) = false.
Proof.
  induction s as [|a s IH]; simpl; [done|].
  destruct (decide (a = c)); [done|]. intros H.
  destruct (decide (a = c')); [by apply IH|]. simpl.
  case_decide; [done|]. by apply IH.
Qed.

Lemma remove_char_free c s : Py.contains c s = false -> remove_char c s = s.
Proof.
  induction s as [|a s IH]; simpl; [done|].
  destruct (decide (a = c)); [done|]. intros H. by rewrite IH.
Qed.

Lemma take_keeps_free c n s :
  Py.contains c s = false -> Py.contains c (Py.take n s) = false.
Proof.
  revert s. induction n as [|n IH]; intros [|a s]; simpl; try done.
  case_decide; [done|]. apply IH.
Qed.

Lemma lstrip_keeps_free c s :
  Py.contains c s = false -> Py.contains c (Py.lstrip s) = false.
Proof.
  induction s as [|a s IH]; simpl; [done|].
  destruct (Py.is_space a); [|done]. case_decide; [done|]. apply IH.
Qed.

Lemma rstrip_keeps_free c s :
  Py.contains c s = false -> Py.contains c (Py.rstrip s) = false.
Proof.
  induction s as [|a s IH]; simpl; [done|].
  case_decide as Hac; [done|]. intros H. specialize (IH H).
  destruct (Py.rstrip s) as [|b r].
  - destruct (Py.is_space a); [done|]. simpl. by case_decide.
  - change (Py.contains c (String a (String b r)))
      with (if decide (a = c) then true else Py.contains c (String b r)).
    by case_decide.
Qed.

Lemma strip_keeps_free c s :
  Py.contains c s = false -> Py.contains c (Py.strip s) = false.
Proof. intros H. by apply rstrip_keeps_free, lstrip_keeps_free. Qed.

Lemma take_length n s : (String.length (Py.take n s) <= n)%nat.
Proof.
  revert s. induction n as [|n IH]; intros [|a s]; simpl; try lia.
  specialize (IH s). lia.
Qed.

Lemma take_all n s : (String.length s <= n)%nat -> Py.take n s = s.
Proof.
  revert s. induction n as [|n IH]; intros [|a s]; simpl; try done; try lia.
  intros H. rewrite IH; [done|lia].
Qed.

Lemma lstrip_length s : (String.length (Py.lstrip s) <= String.length s)%nat.
Proof.
  induction s as [|a s IH]; simpl; [done|].
  destruct (Py.is_space a); simpl; lia.
Qed.

Lemma rstrip_length s : (String.length (Py.rstrip s) <= String.length s)%nat.
Proof.
  induction s as [|a s IH]; simpl; [done|].
  destruct (Py.rstrip s); [destruct (Py.is_space a)|]; simpl in *; lia.
Qed.

Lemma strip_length s : (String.length (Py.strip s) <= String.length s)%nat.
Proof.
  unfold Py.strip. etrans; [apply rstrip_length|apply lstrip_length].
Qed.

Lemma fold_remove_free c l s :
  Py.contains c s = false ->
  Py.contains c (List.fold_left (fun name c => remove_char c name) l s) = false.
Proof.
  revert s. induction l as [|c' l IH]; intros s H; simpl; [done|].
  by apply IH, remove_char_keeps_free.
Qed.

Lemma fold_remove_gone c l s :
  In c l ->
  Py.contains c (List.fold_left (fun name c => remove_char c name) l s) = false.
Proof.
  revert s. induction l as [|c' l IH]; intros s; simpl; [done|].
  intros [->|Hin]; [|by apply IH].
  apply fold_remove_free, remove_char_gone.
Qed.

Lemma fold_remove_id l s :
  (forall c, In c l -> Py.contains c s = false) ->
  List.fold_left (fun name c => remove_char c name) l s = s.
Proof.
  induction l as [|c l IH]; intros H; simpl; [done|].
  rewrite remove_char_free by (apply H; by left).
  apply IH. intros c' Hc'. apply H. by right.
Qed.

(** X1: whatever the title, [safe_filename] returns a name that holds none
    of the characters of [bad], is at most 120 characters long and has no
    white space at either end; and a name it has returned is returned
    unchanged when passed through it again. *)
Theorem safe_filename_is_safe (name : string) :
  (forall c, In c bad -> Py.contains c (safe_filename name) = false) /\
  (String.length (safe_filename name) <= 120)%nat /\
  Py.strip (safe_filename name) = safe_filename name /\
  safe_filename (safe_filename name) = safe_filename name.
Proof.
  assert (forall c, In c bad -> Py.contains c (safe_filename name) = false) as Hfree.
  { intros c Hc. unfold safe_filename.
    by apply strip_keeps_free, take_keeps_free, fold_remove_gone. }
  assert (String.length (safe_filename name) <= 120)%nat as Hlen.
  { unfold safe_filename. etrans; [apply strip_length|apply take_length]. }
  split; [done|]. split; [done|]. split; [apply strip_idem|].
  unfold safe_filename at 1.
  rewrite fold_remove_id by done. rewrite take_all by done.
  apply strip_idem.
Qed.

Lemma safe_filename_is_safe_witness :
  Py.contains "/"%char (safe_filename "  What? A <great> video: part 1/2  ") = false.
Proof.
  destruct (safe_filename_is_safe "  What? A <great> video: part 1/2  ") as (H & _).
  apply H. simpl. tauto.
Defined.

Example safe_filename_title :
  safe_filename "  What? A <great> video: part 1/2  " = "What A great video part 12".
Proof. reflexivity. Qed.

(** ** [human_size] *)

Lemma Qeq_bool_false_pos (b : Q) : (0 < b)%Q -> Qeq_bool b 0 = false.
Proof.
  intros Hb. destruct (Qeq_bool b 0) eqn:Heq; [|done].
  apply Qeq_bool_iff in Heq. rewrite Heq in Hb. by apply Qlt_irrefl in Hb.
Qed.

(** Dividing a float of 1024 or more by 1024 gives a float. *)
Lemma round_float_div_1024 (b : Q) :
  is_float b -> (1024 <= b)%Q -> (round_float (b / 1024) == b / 1024)%Q.
Proof.
  unfold is_float. intros Hb Hbig.
  assert (0 < b)%Q as Hpos by lra.
  assert (0 < b / 1024)%Q as Hpos' by (apply Qlt_shift_div_l; lra).
  rewrite round_float_pos in Hb by done. rewrite round_float_pos by done.
  destruct (Qlog2_spec b Hpos) as [Hlo Hhi].
  set (k := Qlog2 b) in *.
  assert (10 <= k)%Z as Hk.
  { assert (2 ^ 10 < 2 ^ (k + 1))%Q as H.
    { eapply Qle_lt_trans; [|exact Hhi]. by change (2 ^ 10)%Q with 1024%Q. }
    apply Qpower_lt_compat_l_inv in H; [lia|done]. }
  assert (forall z : Z, 2 ^ (z - 10) == 2 ^ z / 1024)%Q as Hshift.
  { intros z. rewrite Qpower_minus by done. by change (2 ^ 10)%Q with 1024%Q. }
  assert (Qlog2 (b / 1024) = k - 10)%Z as Hk'.
  { apply Qlog2_unique; [done|..].
    - rewrite Hshift. apply Qmult_le_compat_r; [done|]. by vm_compute.
    - replace (k - 10 + 1)%Z with (k + 1 - 10)%Z by lia. rewrite Hshift.
      apply Qmult_lt_compat_r; [by vm_compute|done]. }
  unfold round_pos, ulp_exp in *. cbv zeta in *. fold k in Hb. rewrite Hk'.
  replace (Z.max (k - 52) (-1074)) with (k - 52)%Z in Hb by lia.
  replace (Z.max (k - 10 - 52) (-1074)) with (k - 52 - 10)%Z by lia.
  pose proof (Qpow2_pos (k - 52)) as Hp.
  rewrite (round_half_even_comp (b / 1024 / 2 ^ (k - 52 - 10)) (b / 2 ^ (k - 52))).
  - rewrite Hshift. rewrite <- Hb at 2. field.
  - rewrite Hshift. field. lra.
Qed.

Lemma human_size_loop_spec (units : list string) :
  forall b : Q,
    (0 < b)%Q -> is_float b ->
    exists (k : nat) (x : Q),
      (k <= length units)%nat /\
      human_size_loop units b = Sized x (nth k (units ++ ["PB"]) "") /\
      (x * 1024 ^ Z.of_nat k == b)%Q /\
      ((k < length units)%nat -> (x < 1024)%Q) /\
      ((0 < k)%nat -> (1 <= x)%Q).
Proof.
  induction units as [|unit rest IH]; intros b Hb Hfloat.
  - exists 0%nat, b. simpl. repeat split; try done; try lia. ring.
  - cbn [human_size_loop]. destruct (Qlt_le_dec b 1024) as [Hsmall|Hbig].
    + exists 0%nat, b. simpl. repeat split; try done; try lia. ring.
    + pose proof (round_float_div_1024 b Hfloat Hbig) as Hdiv.
      set (b' := round_float (b / 1024)) in *.
      assert (1 <= b')%Q as Hone.
      { rewrite Hdiv. apply Qle_shift_div_l; lra. }
      assert (is_float b') as Hfloat'.
      { unfold is_float. by rewrite (round_float_comp _ _ Hdiv). }
      destruct (IH b' ltac:(lra) Hfloat') as (k & x & Hk & Hsize & Hval & Hlt & Hge).
      exists (S k), x. split; [simpl; lia|]. split; [done|]. split; [|split].
      * rewrite Nat2Z.inj_succ, <- Z.add_1_r, Qpower_plus by done.
        rewrite Qpower_1_r. rewrite Qmult_assoc, Hval, Hdiv. field.
      * intros Hlen. apply Hlt. simpl in Hlen. lia.
      * intros _. destruct k as [|k]; [|apply Hge; lia].
        simpl in Hval. lra.
Qed.

(** X2: [human_size] answers "Unknown" for no size and for a size of zero;
    a positive size that is a float (an int up to 2^53 is one) comes back
    as a magnitude [x] with the unit of rank [k] such that [x * 1024^k] is
    the size, with [x < 1024] for every unit below "PB" and [1 <= x] for
    every unit above "B". *)
Theorem human_size_scales (b : Q) :
  human_size None = Unknown /\
  ((b == 0)%Q -> human_size (Some b) = Unknown) /\
  ((0 < b)%Q -> is_float b -> (b < 2 ^ 1024)%Q ->
   exists (k : nat) (x : Q),
     (k <= 5)%nat /\
     human_size (Some b) = Sized x (nth k size_units "") /\
     (x * 1024 ^ Z.of_nat k == b)%Q /\
     ((k < 5)%nat -> (x < 1024)%Q) /\
     ((0 < k)%nat -> (1 <= x)%Q)).
Proof.
  split; [done|]. split.
  { intros Hb. unfold human_size. apply Qeq_bool_iff in Hb. by rewrite Hb. }
  intros Hb Hfloat _. unfold human_size. rewrite (Qeq_bool_false_pos b Hb).
  apply (human_size_loop_spec ["B"; "KB"; "MB"; "GB"; "TB"] b Hb Hfloat).
Qed.

Lemma human_size_scales_witness :
  exists (k : nat) (x : Q),
    human_size (Some 1536000%Q) = Sized x (nth k size_units "") /\
    (x * 1024 ^ Z.of_nat k == 1536000)%Q /\ (1 <= x)%Q /\ (x < 1024)%Q /\
    k = 2%nat.
Proof.
  destruct (human_size_scales 1536000%Q) as (_ & _ & H).
  destruct (H ltac:(reflexivity) ltac:(by vm_compute) ltac:(by vm_compute))
    as (k & x & Hk & Hsize & Hval & Hlt & Hge).
  exists k, x.
  assert (k = 2%nat) as ->.
  { pose proof Hsize as Hunit. vm_compute in Hunit. injection Hunit as _ Hunit.
    clear Hsize Hval Hlt Hge.
    do 6 (destruct k as [|k]; try discriminate Hunit; try reflexivity). lia. }
  split; [exact Hsize|]. split; [exact Hval|].
  split; [apply Hge; lia|]. split; [apply Hlt; lia|reflexivity].
Defined.

(** ** The speed test *)

Lemma read_chunks_bound (m : Z) (lengths : list Z) (total : Z) :
  0 <= m ->
  Forall (fun n => 0 <= n <= m) lengths ->
  0 <= total <= 200000 ->
  total <= read_chunks total lengths <= 200000 + m.
Proof.
  intros Hm Hall. revert total.
  induction Hall as [|n rest Hn _ IH]; intros total Ht; simpl; [lia|].
  destruct (Z.ltb_spec 200000 (total + n)); [lia|].
  specialize (IH (total + n)). lia.
Qed.

Lemma speed_test_loop_spec (E : Env) (urls : list string) :
  (forall u lengths t, requests_get E u = ProbeChunks lengths t ->
                       Forall (fun n => 0 <= n <= 8192) lengths) ->
  match speed_test_loop E urls with
  | Some v =>
      exists u lengths t,
        In u urls /\ requests_get E u = ProbeChunks lengths t /\
        (0 < t)%Q /\
        v = (inject_Z (read_chunks 0 lengths) / t)%Q /\
        (0 <= v)%Q /\
        0 <= read_chunks 0 lengths <= 208192
  | None =>
      forall u, In u urls ->
        requests_get E u = ProbeRaises \/
        exists lengths t, requests_get E u = ProbeChunks lengths t /\ (t <= 0)%Q
  end.
Proof.
  intros Hchunks. induction urls as [|u urls IH]; simpl; [done|].
  destruct (requests_get E u) as [|lengths t] eqn:Hget.
  - destruct (speed_test_loop E urls) as [v|].
    + destruct IH as (u' & l' & t' & Hin & H). exists u', l', t'. split; [by right|done].
    + intros u' [<-|Hin]; [by left|by apply IH].
  - destruct (Qlt_le_dec 0 t) as [Hpos|Hle].
    + pose proof (read_chunks_bound 8192 lengths 0 ltac:(lia)
                    (Hchunks _ _ _ Hget) ltac:(lia)) as Hb.
      exists u, lengths, t. split; [by left|]. split; [done|]. split; [done|].
      split; [done|]. split; [|lia].
      apply Qle_shift_div_l; [done|]. rewrite Qmult_0_l.
      change 0%Q with (inject_Z 0). rewrite <- Zle_Qle. lia.
    + destruct (speed_test_loop E urls) as [v|].
      * destruct IH as (u' & l' & t' & Hin & H). exists u', l', t'.
        split; [by right|done].
      * intros u' [<-|Hin]; [|by apply IH]. right. by eexists _, _.
Qed.

(** X3: when every chunk of a probe is between 0 and 8192 bytes long,
    [quick_speed_test] answers either a speed measured on one of its two
    addresses, over a positive time, as bytes read by time, never negative,
    with at most 208192 bytes read (it stops after the chunk that takes it
    past 200000); or [None], and then every address raised or answered in
    no time at all. *)
Theorem quick_speed_test_measures (E : Env) :
  (forall u lengths t, requests_get E u = ProbeChunks lengths t ->
                       Forall (fun n => 0 <= n <= 8192) lengths) ->
  match quick_speed_test E with
  | Some v =>
      exists u lengths t,
        In u speed_test_urls /\ requests_get E u = ProbeChunks lengths t /\
        (0 < t)%Q /\
        v = (inject_Z (read_chunks 0 lengths) / t)%Q /\
        (0 <= v)%Q /\
        0 <= read_chunks 0 lengths <= 208192
  | None =>
      forall u, In u speed_test_urls ->
        requests_get E u = ProbeRaises \/
        exists lengths t, requests_get E u = ProbeChunks lengths t /\ (t <= 0)%Q
  end.
Proof. apply speed_test_loop_spec. Qed.

Lemma quick_speed_test_witness :
  exists v, quick_speed_test env_probe = Some v /\ (0 <= v)%Q.
Proof.
  assert (forall u lengths t,
            requests_get env_probe u = ProbeChunks lengths t ->
            Forall (fun n => 0 <= n <= 8192) lengths) as Hchunks.
  { intros u lengths t. simpl. case_decide; [|done].
    intros [= <- _]. repeat (apply Forall_cons; split; [lia|]). by apply Forall_nil. }
  pose proof (quick_speed_test_measures env_probe Hchunks) as H.
  destruct (quick_speed_test env_probe) as [v|] eqn:Hq; [|discriminate Hq].
  destruct H as (_ & _ & _ & _ & _ & _ & _ & Hv & _). by exists v.
Defined.

(** ** The time estimate *)

(** Below 2^53 the float floor division by 60 is the exact one. *)
Lemma float_floordiv_60_exact (x : Q) :
  (0 <= x)%Q -> (x < 2 ^ 53 + 1)%Q -> float_floordiv_60 x = Qfloor (x / 60).
Proof.
  intros Hx0 Hx. unfold float_floordiv_60, float_mod_60. cbv zeta.
  set (k := Qfloor (x / 60)).
  pose proof (Qfloor_le (x / 60)) as Hk1. fold k in Hk1.
  assert (0 <= k) as Hk0.
  { change 0 with (Qfloor 0). apply Qfloor_resp_le.
    apply Qle_shift_div_l; [done|]. by rewrite Qmult_0_l. }
  assert (x == x / 60 * 60)%Q as Hsixty by field.
  assert (inject_Z (60 * k) <= x)%Q as Hle.
  { rewrite inject_Z_mult. change (inject_Z 60) with 60%Q. lra. }
  assert (60 * k < 2 ^ 53) as Hbound.
  { assert (inject_Z (60 * k) < inject_Z (2 ^ 53 + 1))%Q as H.
    { eapply Qle_lt_trans; [exact Hle|]. rewrite inject_Z_plus.
      by rewrite <- Qpow2_inject_Z. }
    rewrite <- Zlt_Qlt in H. change (2 ^ 53) with 9007199254740992 in *. lia. }
  assert (x - (x - 60 * inject_Z k) == inject_Z (60 * k))%Q as H1.
  { rewrite inject_Z_mult. change (inject_Z 60) with 60%Q. ring. }
  rewrite (round_float_comp _ _ H1).
  assert (round_float (inject_Z (60 * k)) / 60 == inject_Z k)%Q as H2.
  { rewrite round_float_int by lia. rewrite inject_Z_mult.
    change (inject_Z 60) with 60%Q. field. }
  rewrite (round_float_comp _ _ H2).
  assert (round_float (inject_Z k) == inject_Z k)%Q as H3
    by (apply round_float_int; lia).
  rewrite (Qfloor_comp _ _ H3), Qfloor_Z.
  destruct (Qlt_le_dec (1 # 2) (round_float (inject_Z k) - inject_Z k)) as [H|H];
    [|done].
  rewrite H3 in H. lra.
Qed.

(** X4: for a size and a speed that are positive floats, with a quotient
    in the normal range of floats and below 2^53 seconds, [eta_str] answers
    minutes and seconds, never "Unknown".  The time [eta] they are cut from
    is the float nearest to size/speed, off by at most one part in 2^53;
    the minutes are not negative, the seconds lie between 0 and 59, and
    together they are the whole seconds of [eta]. *)
Theorem eta_str_minutes_seconds (spd est : Q) :
  (0 < spd)%Q -> (0 < est)%Q -> is_float spd -> is_float est ->
  (2 ^ (-1022) <= est / spd)%Q -> (est / spd < 2 ^ 53)%Q ->
  exists mins secs eta,
    eta_str (Some spd) (Some est) = Eta mins secs /\
    eta = round_float (est / spd) /\
    (- (est / spd / 2 ^ 53) <= eta - est / spd)%Q /\
    (eta - est / spd <= est / spd / 2 ^ 53)%Q /\
    0 <= mins /\ 0 <= secs < 60 /\
    (inject_Z (60 * mins + secs) <= eta)%Q /\
    (eta < inject_Z (60 * mins + secs) + 1)%Q.
Proof.
  intros Hspd Hest Hfs Hfe Hlo Hhi.
  unfold eta_str, q_truthy.
  rewrite (Qeq_bool_false_pos spd Hspd), (Qeq_bool_false_pos est Hest).
  cbn [negb default from_option id]. unfold float_div.
  assert (round_float est / round_float spd == est / spd)%Q as Hq.
  { unfold is_float in Hfs, Hfe. by rewrite Hfs, Hfe. }
  rewrite (round_float_comp _ _ Hq).
  pose proof (round_float_positive _ Hlo) as Heta.
  destruct (round_float_error _ Hlo) as [He1 He2].
  set (eta := round_float (est / spd)) in *.
  rewrite (Qeq_bool_false_pos _ Heta). cbn [negb].
  assert (eta < 2 ^ 53 + 1)%Q as Hsmall.
  { assert (est / spd / 2 ^ 53 < 1)%Q as H.
    { apply Qlt_shift_div_r; [by vm_compute|]. by rewrite Qmult_1_l. }
    change (2 ^ 53)%Q with 9007199254740992%Q in *. lra. }
  rewrite float_floordiv_60_exact by (done || by apply Qlt_le_weak).
  unfold float_mod_60.
  set (mins := Qfloor (eta / 60)).
  set (rest := (eta - 60 * inject_Z mins)%Q).
  set (secs := Qfloor rest).
  exists mins, secs, eta. split; [done|]. split; [done|].
  split; [done|]. split; [done|].
  assert (eta == eta / 60 * 60)%Q as Hsixty by field.
  pose proof (Qfloor_le (eta / 60)) as Hm1.
  pose proof (Qlt_floor (eta / 60)) as Hm2.
  fold mins in Hm1, Hm2. rewrite inject_Z_plus in Hm2.
  change (inject_Z 1) with 1%Q in Hm2.
  assert (0 <= rest)%Q as Hr1 by (unfold rest; lra).
  assert (rest < 60)%Q as Hr2 by (unfold rest; lra).
  pose proof (Qfloor_le rest) as Hs1.
  pose proof (Qlt_floor rest) as Hs2.
  fold secs in Hs1, Hs2. rewrite inject_Z_plus in Hs2.
  change (inject_Z 1) with 1%Q in Hs2.
  assert (0 <= mins) as Hmins.
  { change 0 with (Qfloor 0). apply Qfloor_resp_le.
    apply Qle_shift_div_l; [done|]. rewrite Qmult_0_l. by apply Qlt_le_weak. }
  assert (0 <= secs) as Hsecs0.
  { change 0 with (Qfloor 0). by apply Qfloor_resp_le. }
  assert (secs < 60) as Hsecs60.
  { rewrite Zlt_Qlt. change (inject_Z 60) with 60%Q. lra. }
  split; [done|]. split; [done|].
  rewrite inject_Z_plus, inject_Z_mult. change (inject_Z 60) with 60%Q.
  split; unfold rest in *; lra.
Qed.

(** A download of 2500000 bytes at 833333.3333333334 bytes a second (the
    float 7158278826666667 / 2^33): the quotient, just below 3, is the
    float 3.0, and the estimate reads "0m3s". *)
Lemma eta_str_minutes_seconds_witness :
  eta_str (Some (7158278826666667 # 8589934592)) (Some 2500000%Q) = Eta 0 3.
Proof.
  destruct (eta_str_minutes_seconds (7158278826666667 # 8589934592) 2500000%Q)
    as (mins & secs & eta & Heq & _);
    [reflexivity|reflexivity|by vm_compute|by vm_compute|by vm_compute|by vm_compute|].
  rewrite Heq. vm_compute in Heq. exact (eq_sym Heq).
Defined.

(** ** The estimator's choice of a format *)

Lemma max_by_in {A} (key : A -> Z) (b : A) (l : list A) :
  In (max_by key b l) (b :: l).
Proof.
  revert b. induction l as [|x l IH]; intros b; simpl; [by left|].
  destruct (Z.ltb (key b) (key x)).
  - right. apply IH.
  - destruct (IH b) as [Heq|Hin]; [by left|]. right. by right.
Qed.

Lemma max_by_ge {A} (key : A -> Z) (b : A) (l : list A) (x : A) :
  In x (b :: l) -> key x <= key (max_by key b l).
Proof.
  revert b x. induction l as [|y l IH]; intros b x.
  - intros [<-|[]]. simpl. lia.
  - intros Hin. simpl. destruct (Z.ltb_spec (key b) (key y)) as [Hlt|Hge].
    + destruct Hin as [<-|Hin].
      * transitivity (key y); [lia|]. apply IH. by left.
      * by apply IH.
    + destruct Hin as [<-|[<-|Hin]].
      * apply IH. by left.
      * transitivity (key b); [lia|]. apply IH. by left.
      * apply IH. by right.
Qed.

Lemma capped_quality_string d :
  d +:+ "p" <> "best" /\
  Py.endswith "p" (d +:+ "p") = true /\
  Py.drop_last (d +:+ "p") = d.
Proof.
  split; [|split].
  - intros Heq. apply (f_equal Py.last_char) in Heq.
    rewrite last_char_app in Heq. discriminate.
  - unfold Py.endswith. rewrite last_char_app. by apply bool_decide_eq_true.
  - apply drop_last_app.
Qed.

(** X5: for a quality of digits (4300 at most) followed by "p", the
    estimator picks a format only among those that have a height, not
    above the cap, and a declared size; it picks one of greatest height
    among them; and it picks none exactly when there is no such format. *)
Theorem select_capped (formats : list Format) (d : string) :
  Py.isdigit d = true -> (String.length d <= 4300)%nat ->
  match select formats (d +:+ "p") with
  | Some f =>
      In f formats /\ eligible (digits_value 0 d) f = true /\
      forall g, In g formats -> eligible (digits_value 0 d) g = true ->
                default 0 (height g) <= default 0 (height f)
  | None =>
      forall g, In g formats -> eligible (digits_value 0 d) g = false
  end.
Proof.
  intros Hd _. destruct (capped_quality_string d) as (Hbest & Hend & Hdrop).
  unfold select. case_decide; [done|]. rewrite Hend, Hdrop, Hd.
  cbn [andb]. cbv zeta.
  change (List.filter _ formats)
    with (List.filter (eligible (digits_value 0 d)) formats).
  set (h := digits_value 0 d).
  assert (forall x, eligible h x = true ->
            default 0 (num_or (height x) (Some 0)) = default 0 (height x)) as Hkey.
  { intros x Hx. unfold eligible in Hx.
    apply andb_prop in Hx as [Hx _]. apply andb_prop in Hx as [Hx _].
    unfold num_or. by rewrite Hx. }
  destruct (List.filter (eligible h) formats) as [|c cand] eqn:Hcand; simpl.
  - intros g Hg. destruct (eligible h g) eqn:Hel; [|done].
    assert (In g (List.filter (eligible h) formats)) as Hin
      by (by apply filter_In).
    by rewrite Hcand in Hin.
  - pose proof (max_by_in (fun x => default 0 (num_or (height x) (Some 0))) c cand)
      as Hin.
    rewrite <- Hcand in Hin. apply filter_In in Hin as [Hin Hel].
    split; [done|]. split; [done|].
    intros g Hg Hgel.
    assert (In g (c :: cand)) as Hgc by (rewrite <- Hcand; by apply filter_In).
    apply (max_by_ge (fun x => default 0 (num_or (height x) (Some 0)))) in Hgc.
    simpl in Hgc. rewrite (Hkey g Hgel), (Hkey _ Hel) in Hgc. done.
Qed.

Lemma select_capped_witness :
  exists f,
    select sample_formats "720p" = Some f /\
    eligible 720 f = true /\ default 0 (height f) = 720.
Proof.
  pose proof (select_capped sample_formats "720" eq_refl ltac:(simpl; lia)) as H.
  change ("720" +:+ "p") with "720p" in H.
  change (digits_value 0 "720") with 720 in H.
  destruct (select sample_formats "720p") as [f|] eqn:Hsel; [|discriminate Hsel].
  destruct H as (_ & Hel & Hmax). exists f. split; [done|]. split; [done|].
  specialize (Hmax {| height := Some 720; filesize := Some 4000 |}
                ltac:(simpl; tauto) eq_refl).
  unfold eligible in Hel.
  apply andb_prop in Hel as [Hel _]. apply andb_prop in Hel as [_ Hel].
  apply Z.leb_le in Hel. simpl in Hmax. lia.
Defined.



(** ** The worker loop and the queue *)

(** X7: a single worker that is given at least as many turns as there are
    pending jobs empties the queue and has processed the jobs one after the
    other in the order they were put, each starting in the world the one
    before left; the turns that remain change nothing.  A job added with
    [add_to_queue] is processed after all the jobs that were pending. *)
Theorem worker_takes_jobs_in_order (E : Env) (q : Queue.t) (w : World) (turns : nat) :
  Queue.counted q ->
  (length (Queue.queue q) <= turns)%nat ->
  DownloadWorker.run E turns q w =
    (inr tt,
     {| Queue.queue := [];
        Queue.unfinished_tasks := Queue.unfinished_tasks q - length (Queue.queue q) |},
     process_all E (Queue.queue q) w) /\
  (forall a,
     App.tasks_q a = q -> Py.strip (App.url_var a) <> "" ->
     exists opts,
       process_all E (Queue.queue (App.tasks_q (App.add_to_queue a))) w =
         snd (DownloadWorker.process_task E (Py.strip (App.url_var a), opts)
                (process_all E (Queue.queue q) w))).
Proof.
  intros Hq Hturns. split.
  - destruct q as [tasks n]. by apply run_drains.
  - intros a <- Hurl. unfold App.add_to_queue.
    destruct (Py.strip (App.url_var a)) as [|c u] eqn:Hs; [done|].
    cbn [Py.truthy negb]. eexists. simpl. by rewrite process_all_app.
Qed.

Lemma worker_takes_jobs_in_order_witness :
  DownloadWorker.run env_fetch_fails 5 (App.tasks_q busy_app) w0 =
    (inr tt, {| Queue.queue := []; Queue.unfinished_tasks := 2 - 2 |},
     process_all env_fetch_fails (Queue.queue (App.tasks_q busy_app)) w0).
Proof.
  refine (proj1 (worker_takes_jobs_in_order env_fetch_fails (App.tasks_q busy_app)
                   w0 5 _ _)).
  - unfold Queue.counted. simpl. lia.
  - simpl. lia.
Defined.

(** X8: every queue the window can build is one on which [task_done] is
    never called too often: the empty queue is, and [add_to_queue] and
    [clear_queue] keep it so; on such a queue the worker loop never dies,
    however many turns it runs, and leaves such a queue.  On a queue whose
    count had run out the loop would die with [ValueError] after its next
    job. *)
Theorem worker_never_dies (E : Env) :
  Queue.counted Queue.empty /\
  (forall a, Queue.counted (App.tasks_q a) ->
             Queue.counted (App.tasks_q (App.add_to_queue a)) /\
             Queue.counted (App.tasks_q (snd (App.clear_queue a)))) /\
  (forall q turns w,
     Queue.counted q ->
     exists q' w',
       DownloadWorker.run E turns q w = (inr tt, q', w') /\ Queue.counted q') /\
  (forall task rest turns w,
     DownloadWorker.run E (S turns)
       {| Queue.queue := task :: rest; Queue.unfinished_tasks := 0 |} w =
       (inl (ValueError "task_done() called too many times"),
        {| Queue.queue := rest; Queue.unfinished_tasks := 0 |},
        snd (DownloadWorker.process_task E task w))).
Proof.
  split; [unfold Queue.counted; simpl; lia|]. split; [|split].
  - intros a Ha. split.
    + unfold App.add_to_queue.
      destruct (negb (Py.truthy (Py.strip (App.url_var a)))); [done|].
      simpl. by apply put_counted.
    + unfold Queue.counted. simpl. lia.
  - intros q turns w Hq. by apply run_alive.
  - intros task rest turns w. simpl.
    unfold DownloadWorker.iteration, DownloadWorker.finish. simpl.
    destruct (process_task_total E task w) as [w' Hrun].
    unfold try_except. by rewrite Hrun.
Qed.

Lemma worker_never_dies_witness :
  exists q' w',
    DownloadWorker.run env_ok 3 (App.tasks_q busy_app) w0 = (inr tt, q', w') /\
    Queue.counted q'.
Proof.
  destruct (worker_never_dies env_ok) as (Hempty & Hops & Hrun & _).
  apply Hrun.
  apply (Hops (App.add_to_queue sample_app)).
  apply (Hops sample_app). exact Hempty.
Defined.

(** ** The progress hook *)




(** ** Subtitles and the history *)

(** X10: a subtitle download that raises is logged and changes nothing
    else: the job still ends with the final updates for the path the Trim
    stage handed on, on the files the Trim stage left.  The language asked
    for is the one typed in, or "en" when the field is empty. *)
Theorem subtitle_failure_is_not_fatal (E : Env) (url : string) (opts : Opts)
    (w : World) (f : string) (e : exc) :
  outcome (ydl_extract_info E url (DownloadWorker.ydl_opts opts)) = inr f ->
  subs opts = true ->
  ydl_download E url (DownloadWorker.sub_opts opts) = Some e ->
  exists f1 w1 out w2,
    DownloadWorker.convert E opts f (after_download E url opts w) = (inr f1, w1) /\
    DownloadWorker.trim E opts f1 w1 = (inr out, w2) /\
    DownloadWorker.process_task E (url, opts) w =
      (inr tt,
       {| files := files w2;
          events := events w2
                      ++ [SubDownload url (DownloadWorker.sub_opts opts);
                          Log (LineExc "Sub download failed: " e)]
                      ++ finalize_events url out |}) /\
    subtitleslangs (DownloadWorker.sub_opts opts) =
      [if Py.truthy (subs_lang opts) then subs_lang opts else "en"].
Proof.
  intros Hout Hsubs Hdl.
  destruct (convert_total E opts f (after_download E url opts w)) as (f1 & w1 & H1).
  destruct (trim_total E opts f1 w1) as (out & w2 & H2).
  exists f1, w1, out, w2. split; [done|]. split; [done|]. split.
  - rewrite (process_task_fetched E url opts w f f1 w1 out w2 Hout H1 H2).
    unfold subtitles_events. by rewrite Hsubs, Hdl.
  - unfold DownloadWorker.sub_opts. simpl. by destruct (Py.truthy (subs_lang opts)).
Qed.

Lemma subtitle_failure_witness :
  exists w',
    DownloadWorker.process_task
      {| int_of_float := int_float;
         ydl_extract_info := fun _ _ => fetch_ok;
         subprocess := fun _ => Exited 0 false;
         ydl_download := fun _ _ => Some fetch_error;
         ydl_info := fun _ => inr sample_info;
         requests_get := fun _ => ProbeRaises |}
      ("https://example.com/v",
       {| quality := "best"; save_folder := "/d"; start := ""; end_ := "";
          audio_only := false; convert_mp3 := false; subs := true;
          subs_lang := ""; noplaylist := true |}) w0 = (inr tt, w') /\
    last (events w') = Some (Log (Line "Completed: /d/v.webm")).
Proof.
  destruct (subtitle_failure_is_not_fatal
              {| int_of_float := int_float;
                 ydl_extract_info := fun _ _ => fetch_ok;
                 subprocess := fun _ => Exited 0 false;
                 ydl_download := fun _ _ => Some fetch_error;
                 ydl_info := fun _ => inr sample_info;
                 requests_get := fun _ => ProbeRaises |}
              "https://example.com/v"
              {| quality := "best"; save_folder := "/d"; start := ""; end_ := "";
                 audio_only := false; convert_mp3 := false; subs := true;
                 subs_lang := ""; noplaylist := true |} w0 "/d/v.webm" fetch_error
              eq_refl eq_refl eq_refl)
    as (f1 & w1 & out & w2 & Hc & Ht & Hrun & _).
  injection Hc as <- <-. injection Ht as <- <-.
  eexists. split; [exact Hrun|]. cbn [events]. by rewrite !last_app.
Defined.

Lemma deliver_no_history now evs a :
  Forall (fun ev => no_history ev = true) evs ->
  App.history (App.deliver now evs a) = App.history a.
Proof.
  intros H. revert a. induction H as [|ev evs Hev _ IH]; intros a; [done|].
  destruct ev as [line|call| | | |]; simpl; try apply IH.
  destruct call; simpl in *; try done; by rewrite IH.
Qed.

Lemma hooks_events_no_history ds :
  Forall (fun ev => no_history ev = true) (hooks_events ds).
Proof.
  eapply Forall_impl; [apply hooks_events_fetch_only|].
  intros [line|[]| | | |]; simpl; done.
Qed.

Lemma map_Spawn_no_history l :
  Forall (fun ev => no_history ev = true) (map Spawn l).
Proof. induction l; by constructor. Qed.

Lemma convert_no_history E opts f w :
  exists t, events (snd (DownloadWorker.convert E opts f w)) = events w ++ t /\
            Forall (fun ev => no_history ev = true) t.
Proof.
  destruct (convert_cases E opts f w) as (f' & w' & -> & Hc). simpl.
  destruct Hc as [(_ & _ & ->)|[(_ & _ & _ & _ & e & ->)|
                  [(_ & _ & _ & _ & _ & ->)|(_ & _ & _ & _ & _ & ->)]]].
  - exists []. by rewrite app_nil_r.
  - eexists. split; [done|]. by repeat constructor.
  - eexists. split; [done|]. by repeat constructor.
  - eexists. split; [done|]. by repeat constructor.
Qed.

Lemma trim_no_history E opts f w :
  exists t, events (snd (DownloadWorker.trim E opts f w)) = events w ++ t /\
            Forall (fun ev => no_history ev = true) t.
Proof.
  destruct (trim_cases E opts f w) as (f' & w' & -> & Hc). simpl.
  destruct Hc as [(_ & _ & ->)|[(_ & _ & _ & _ & e & _ & ->)|
                  [(_ & _ & _ & _ & _ & ->)|(_ & _ & _ & _ & _ & ->)]]].
  - exists []. by rewrite app_nil_r.
  - eexists. split; [done|]. apply Forall_app. split; [apply map_Spawn_no_history|].
    by repeat constructor.
  - eexists. split; [done|]. apply Forall_app. split; [apply map_Spawn_no_history|].
    by repeat constructor.
  - eexists. split; [done|]. apply Forall_app. split; [apply map_Spawn_no_history|].
    by repeat constructor.
Qed.

Lemma subtitles_events_no_history E url opts :
  Forall (fun ev => no_history ev = true) (subtitles_events E url opts).
Proof.
  unfold subtitles_events. destruct (subs opts); [|constructor].
  destruct (ydl_download E url (DownloadWorker.sub_opts opts)); by repeat constructor.
Qed.

(** X11: the thunks that a job with a successful fetch schedules, run in
    order by the Tk loop, add exactly one entry to the history, at its
    head, for the job's URL and the path the job delivers; they leave the
    status at "Ready" and the progress bar at 0. *)
Theorem completed_job_adds_one_history_entry (E : Env) (url : string)
    (opts : Opts) (w : World) (f : string) :
  outcome (ydl_extract_info E url (DownloadWorker.ydl_opts opts)) = inr f ->
  exists out new,
    events (snd (DownloadWorker.process_task E (url, opts) w)) = events w ++ new /\
    last new = Some (Log (Line ("Completed: " +:+ out))) /\
    forall now a,
      App.history (App.deliver now new a) =
        {| h_time := now; h_url := url; h_file := out |} :: App.history a /\
      App.status_var (App.deliver now new a) = Status "Ready" /\
      App.progress_var (App.deliver now new a) = 0%Q.
Proof.
  intros Hout.
  destruct (convert_total E opts f (after_download E url opts w)) as (f1 & w1 & H1).
  destruct (trim_total E opts f1 w1) as (out & w2 & H2).
  rewrite (process_task_fetched E url opts w f f1 w1 out w2 Hout H1 H2).
  destruct (convert_no_history E opts f (after_download E url opts w))
    as (t1 & Ht1 & Hn1).
  destruct (trim_no_history E opts f1 w1) as (t2 & Ht2 & Hn2).
  rewrite H1 in Ht1. rewrite H2 in Ht2. simpl in Ht1, Ht2.
  set (pre := [Log (Line ("Start: " +:+ url));
               Schedule (SetStatus (Status "Downloading..."));
               Extract url (DownloadWorker.ydl_opts opts)]
                ++ hooks_events
                     (hook_calls (ydl_extract_info E url (DownloadWorker.ydl_opts opts)))
                ++ t1 ++ t2 ++ subtitles_events E url opts).
  exists out, (pre ++ finalize_events url out).
  split; [|split].
  - cbn [snd events]. rewrite Ht2, Ht1. unfold pre. by rewrite <- !app_assoc.
  - by rewrite last_app.
  - intros now a. rewrite deliver_app.
    destruct (deliver_finalize now url out (App.deliver now pre a)) as (Hh & Hs & Hp).
    rewrite Hh, Hs, Hp. split; [|done]. f_equal.
    apply deliver_no_history. unfold pre.
    repeat (apply Forall_cons; split; [done|]).
    repeat (apply Forall_app; split);
      auto using hooks_events_no_history, subtitles_events_no_history.
Qed.

Lemma completed_job_witness :
  exists new,
    events (snd (DownloadWorker.process_task env_ok
                   ("https://example.com/v", mp3_opts) w0)) = new /\
    App.history (App.deliver 0%Q new sample_app) =
      [{| h_time := 0%Q; h_url := "https://example.com/v"; h_file := "/d/v.mp3" |}].
Proof.
  destruct (completed_job_adds_one_history_entry env_ok "https://example.com/v"
              mp3_opts w0 "/d/v.webm" eq_refl) as (out & new & Hev & Hlast & Hdel).
  exists new. split; [exact Hev|].
  destruct (Hdel 0%Q sample_app) as (Hh & _). rewrite Hh.
  assert (out = "/d/v.mp3") as ->; [|reflexivity].
  change (events w0 ++ new) with new in Hev. rewrite <- Hev in Hlast.
  vm_compute in Hlast. by simplify_eq.
Defined.

(** ** Format selection *)

(** X12: "Audio only" decides the selector whatever the quality says;
    without it, "best" asks for the best video and audio, and a quality of
    digits followed by "p" asks for the best video whose height is at most
    those very digits, with the best audio. *)
Theorem select_format_cases (opts : Opts) :
  (audio_only opts = true ->
   DownloadWorker.select_format opts = "bestaudio/best") /\
  (audio_only opts = false -> quality opts = "best" ->
   DownloadWorker.select_format opts = "bestvideo+bestaudio/best") /\
  (forall d, audio_only opts = false -> quality opts = d +:+ "p" ->
             Py.isdigit d = true ->
             DownloadWorker.select_format opts =
               "bestvideo[height<=" +:+ d +:+ "]+bestaudio/best").
Proof.
  unfold DownloadWorker.select_format. split; [|split].
  - by intros ->.
  - intros -> ->. done.
  - intros d -> -> Hd. destruct (capped_quality_string d) as (Hbest & Hend & Hdrop).
    rewrite decide_False by done. by rewrite Hend, Hdrop, Hd.
Qed.

Lemma select_format_cases_witness :
  DownloadWorker.select_format trim_opts = "bestvideo[height<=720]+bestaudio/best".
Proof.
  destruct (select_format_cases trim_opts) as (_ & _ & H).
  apply (H "720"); reflexivity.
Defined.

(** ** The worker pool *)

(** X13: started with no worker in the list, the pool gets as many workers
    as the spin box says, and one when the box says less than one.
    Started again while workers are listed, it only shows the "already
    running" box.  Turning the spin box changes the limit but not the
    workers, also through a following start; the new limit takes effect
    once the pool has been stopped and started again. *)
Theorem pool_size (p : Pool.t) :
  (Pool.workers p = [] ->
   Pool.workers (Pool.start_workers p) =
     replicate (Z.to_nat (Z.max 1 (Pool.worker_count_var p))) true /\
   (1 <= length (Pool.workers (Pool.start_workers p)))%nat /\
   App.status_var (Pool.app (Pool.start_workers p)) = Status "Running") /\
  (Pool.workers p <> [] ->
   Pool.workers (Pool.start_workers p) = Pool.workers p /\
   Pool.max_workers (Pool.start_workers p) = Pool.max_workers p /\
   App.dialogs (Pool.app (Pool.start_workers p)) =
     App.dialogs (Pool.app p) ++ [ShowInfo "Info" "Workers already running."]) /\
  (forall n,
     Pool.workers (Pool.spin n p) = Pool.workers p /\
     Pool.max_workers (Pool.spin n p) = Z.max 1 n /\
     (Pool.workers p <> [] ->
      Pool.workers (Pool.start_workers (Pool.spin n p)) = Pool.workers p) /\
     length (Pool.workers
               (Pool.start_workers (Pool.stop_workers (Pool.spin n p)))) =
       Z.to_nat (Z.max 1 n)).
Proof.
  split; [|split].
  - intros Hw. unfold Pool.start_workers. rewrite Hw. simpl.
    split; [done|]. split; [|done]. rewrite length_replicate. lia.
  - intros Hw. unfold Pool.start_workers.
    by destruct (Pool.workers p) as [|x l] eqn:Hl.
  - intros n. split; [done|]. split; [done|]. split.
    + intros Hw. unfold Pool.start_workers, Pool.spin, Pool.update_workers. simpl.
      by destruct (Pool.workers p).
    + unfold Pool.start_workers, Pool.stop_workers, Pool.spin, Pool.update_workers.
      simpl. by rewrite length_replicate.
Qed.

Lemma pool_size_witness :
  Pool.workers
    (Pool.start_workers
       {| Pool.app := sample_app; Pool.workers := []; Pool.max_workers := 2;
          Pool.worker_count_var := 0 |}) = [true].
Proof.
  destruct (pool_size {| Pool.app := sample_app; Pool.workers := [];
                         Pool.max_workers := 2; Pool.worker_count_var := 0 |})
    as (H & _).
  destruct (H eq_refl) as (Hw & _). exact Hw.
Defined.

(** ** The history list *)

Lemma string_app_assoc s1 s2 s3 : (s1 +:+ s2) +:+ s3 = s1 +:+ (s2 +:+ s3).
Proof.
  induction s1 as [|c s1 IH]; [done|]. by rewrite !string_app_cons, IH.
Qed.

Lemma rfind_from_none i c s : Py.contains c s = false -> Py.rfind_from i c s = -1.
Proof.
  revert i. induction s as [|a s IH]; intros i; [done|].
  change (Py.contains c (String a s))
    with (if decide (a = c) then true else Py.contains c s).
  cbn [Py.rfind_from]. destruct (decide (a = c)) as [|Hac]; [done|].
  intros Hs. rewrite IH by done. by destruct (decide (-1 = -1)).
Qed.

Lemma rfind_from_last i c s1 s2 :
  0 <= i -> Py.contains c s2 = false ->
  Py.rfind_from i c (s1 +:+ String c s2) = i + Z.of_nat (String.length s1).
Proof.
  revert i. induction s1 as [|a s1 IH]; intros i Hi Hs2.
  - change ("" +:+ String c s2) with (String c s2).
    cbn [Py.rfind_from]. rewrite rfind_from_none by done.
    destruct (decide (-1 = -1)); [|done]. destruct (decide (c = c)); [simpl; lia|done].
  - rewrite string_app_cons. cbn [Py.rfind_from String.length].
    rewrite IH by (done || lia). rewrite decide_False by lia. lia.
Qed.

Lemma drop_app_length s1 s2 : Py.drop (String.length s1) (s1 +:+ s2) = s2.
Proof. induction s1 as [|c s1 IH]; [by destruct s2|]. by rewrite string_app_cons. Qed.

Lemma split_at_last c p :
  Py.contains c p = true ->
  exists s1 s2, p = s1 +:+ String c s2 /\ Py.contains c s2 = false.
Proof.
  induction p as [|a p IH]; simpl; [done|].
  destruct (Py.contains c p) eqn:Hp.
  - intros _. destruct (IH eq_refl) as (s1 & s2 & -> & Hs2).
    exists (String a s1), s2. by rewrite string_app_cons.
  - case_decide as Hac; [|done]. subst a. intros _. by exists "", p.
Qed.

Lemma basename_after_slash s1 s2 :
  Py.contains "/"%char s2 = false -> basename (s1 +:+ String "/"%char s2) = s2.
Proof.
  intros Hs2. unfold basename, Py.rfind.
  rewrite rfind_from_last by done.
  replace (Z.to_nat (0 + Z.of_nat (String.length s1) + 1))
    with (String.length (s1 +:+ "/")).
  - rewrite <- (drop_app_length (s1 +:+ "/") s2) at 2.
    by rewrite string_app_assoc.
  - rewrite string_app_length. simpl. lia.
Qed.

Lemma basename_plain p : Py.contains "/"%char p = false -> basename p = p.
Proof.
  intros Hp. unfold basename, Py.rfind. by rewrite rfind_from_none.
Qed.

(** X14: the base name that the history list shows never holds a slash and
    is what follows the last slash of the path; for a file name joined to a
    folder it is the file name again.  The list shows the entries newest
    first and at most a hundred of them, so a new entry goes to the top
    and pushes the hundredth line out. *)
Theorem history_list_lines (a : App.t) :
  (forall p, Py.contains "/"%char (basename p) = false /\
             exists dir, p = dir +:+ basename p /\
                         (dir = "" \/ Py.endswith "/"%char dir = true)) /\
  (forall folder name, Py.contains "/"%char name = false ->
                       basename (OsPath.join folder name) = name) /\
  length (refresh_history_list a) = Nat.min 100 (length (App.history a)) /\
  (forall now url file,
     refresh_history_list (App.add_history now url file a) =
       (now, basename file) :: take 99 (refresh_history_list a)).
Proof.
  split; [|split; [|split]].
  - intros p. destruct (Py.contains "/"%char p) eqn:Hp.
    + destruct (split_at_last _ _ Hp) as (s1 & s2 & -> & Hs2).
      rewrite basename_after_slash by done. split; [done|].
      exists (s1 +:+ "/"). split; [by rewrite string_app_assoc|].
      right. unfold Py.endswith. rewrite last_char_app. by apply bool_decide_eq_true.
    + rewrite basename_plain by done. split; [done|]. exists "". by split; [|left].
  - intros folder name Hname. unfold OsPath.join.
    destruct (Py.truthy folder && negb (Py.endswith "/" folder)) eqn:Hf.
    + by apply basename_after_slash.
    + destruct folder as [|c folder]; [by apply basename_plain|].
      simpl in Hf. apply negb_false_iff in Hf.
      rewrite (endswith_drop_last _ _ Hf), string_app_assoc.
      by apply basename_after_slash.
  - unfold refresh_history_list. by rewrite length_map, length_take.
  - intros now url file. unfold refresh_history_list. simpl.
    f_equal. rewrite <- fmap_take. f_equal. rewrite take_take. f_equal.
Qed.

Lemma history_list_lines_witness :
  basename (OsPath.join "/d" "v.webm") = "v.webm".
Proof.
  destruct (history_list_lines sample_app) as (_ & H & _).
  apply H. reflexivity.
Defined.

(** ** The URL field *)

Lemma lstrip_blank s : Py.forall_chars Py.is_space s = true <-> Py.lstrip s = "".
Proof.
  induction s as [|c s IH]; simpl; [done|].
  destruct (Py.is_space c) eqn:Hc; simpl; [done|]. split; intros; done.
Qed.

Lemma strip_blank s : Py.forall_chars Py.is_space s = true <-> Py.strip s = "".
Proof.
  unfold Py.strip. rewrite lstrip_blank. split.
  - by intros ->.
  - intros Hr. destruct (lstrip_head s) as [|(c & r & Hl & Hc)]; [done|].
    destruct (rstrip_head c r Hc) as [r' Hr']. rewrite Hl in Hr. congruence.
Qed.

Lemma lstrip_decompose s :
  exists l, s = l +:+ Py.lstrip s /\ Py.forall_chars Py.is_space l = true.
Proof.
  induction s as [|c s (l & IH & Hl)]; [by exists ""|]. simpl.
  destruct (Py.is_space c) eqn:Hc; [|by exists ""].
  exists (String c l). rewrite string_app_cons, <- IH. simpl. by rewrite Hc, Hl.
Qed.

Lemma rstrip_decompose s :
  exists r, s = Py.rstrip s +:+ r /\ Py.forall_chars Py.is_space r = true.
Proof.
  induction s as [|c s (r & IH & Hr)]; [by exists ""|]. simpl.
  destruct (Py.rstrip s) as [|c' r'] eqn:Hs.
  - change ("" +:+ r) with r in IH. subst r.
    destruct (Py.is_space c) eqn:Hc.
    + exists (String c s). simpl. by rewrite Hc, Hr.
    + by exists s.
  - exists r. by rewrite string_app_cons, <- IH.
Qed.

Lemma strip_decompose s :
  exists l r, s = l +:+ Py.strip s +:+ r /\
              Py.forall_chars Py.is_space l = true /\
              Py.forall_chars Py.is_space r = true.
Proof.
  destruct (lstrip_decompose s) as (l & Hl & Hls).
  destruct (rstrip_decompose (Py.lstrip s)) as (r & Hr & Hrs).
  exists l, r. unfold Py.strip. by rewrite <- Hr, <- Hl.
Qed.

(** X15: with a URL field that is empty or holds only white space, "Add
    to Queue" and "Estimate" do nothing but show their warning, whatever
    the network would answer.  With any other content "Add to Queue"
    appends exactly one job, whose URL is the field's content without the
    surrounding white space and whose quality is the one selected, adds one
    line to the list box, shows no box, and keeps the queue's count of
    unfinished jobs at least as large as the number of pending ones. *)
Theorem url_field_guard (a : App.t) :
  (Py.forall_chars Py.is_space (App.url_var a) = true ->
   App.add_to_queue a =
     App.messagebox (ShowWarning "Input required" "Please paste a YouTube link.") a /\
   forall E, App.estimate E a =
     App.messagebox (ShowWarning "Input" "Paste a YouTube URL first.") a) /\
  (Py.forall_chars Py.is_space (App.url_var a) = false ->
   exists url opts,
     Queue.queue (App.tasks_q (App.add_to_queue a)) =
       Queue.queue (App.tasks_q a) ++ [(url, opts)] /\
     url <> "" /\ Py.strip url = url /\
     (exists l r, App.url_var a = l +:+ url +:+ r /\
                  Py.forall_chars Py.is_space l = true /\
                  Py.forall_chars Py.is_space r = true) /\
     quality opts = App.quality_var a /\
     length (App.queue_listbox (App.add_to_queue a)) =
       S (length (App.queue_listbox a)) /\
     App.dialogs (App.add_to_queue a) = App.dialogs a /\
     (Queue.counted (App.tasks_q a) ->
      Queue.counted (App.tasks_q (App.add_to_queue a)))).
Proof.
  split.
  - intros Hb%strip_blank. unfold App.add_to_queue, App.estimate.
    by rewrite Hb.
  - intros Hb. assert (Py.strip (App.url_var a) <> "") as Hne.
    { intros H%strip_blank. congruence. }
    unfold App.add_to_queue.
    destruct (Py.strip (App.url_var a)) as [|c u] eqn:Hs; [done|].
    cbn [Py.truthy negb]. eexists _, _. split; [reflexivity|].
    split; [done|]. split; [rewrite <- Hs; apply strip_idem|].
    split; [rewrite <- Hs; apply strip_decompose|].
    split; [done|]. split; [simpl; by rewrite length_app, Nat.add_1_r|].
    split; [done|]. unfold Queue.counted. simpl. rewrite length_app. simpl. lia.
Qed.

Lemma url_field_guard_witness :
  exists url opts,
    Queue.queue (App.tasks_q (App.add_to_queue sample_app)) = [(url, opts)] /\
    quality opts = "720p".
Proof.
  destruct (url_field_guard sample_app) as (_ & H).
  destruct (H eq_refl) as (url & opts & Hq & _ & _ & _ & Hquality & _).
  exists url, opts. split; [exact Hq | exact Hquality].
Defined.
